(** * url_shorten: a shallow embedding of [app.py]

    The Flask application keeps two pieces of state: the process-local
    dictionary [_rate_bucket] of the rate limiter and the SQLite table
    [urls].  Both are threaded explicitly through the handlers [create]
    ([POST /shorten]) and [go] ([GET /<code>]).  What the handlers read
    from their environment (the clocks, the draws of [secrets.choice], a
    failure of the storage engine) is passed to them as an argument. *)

From Stdlib Require Import ZArith NArith Ascii String List Lia.
From stdpp Require Import base list gmap.

Open Scope Z_scope.

(** ** Python values *)

(** A Python [str] is a sequence of Unicode code points. *)
Abbreviation str := (list N).

(** The code points of an ASCII literal of the source. *)
Definition py (s : string) : str :=
  List.map N_of_ascii (list_ascii_of_string s).
Arguments py : simpl never.

Fixpoint str_eqb (a b : str) : bool :=
  match a, b with
  | [], [] => true
  | x :: a', y :: b' => N.eqb x y && str_eqb a' b'
  | _, _ => false
  end.

(** [len(u)] *)
Definition len (u : str) : Z := Z.of_nat (length u).

(** Exceptions of the source, with the message [str(e)] shows. *)
Inductive exn : Type :=
| ValueError (msg : string)
| IntegrityError
| OperationalError.

Inductive result (A : Type) : Type :=
| Return (a : A)
| Raise (e : exn).
Arguments Return {A} a.
Arguments Raise {A} e.

(** A raised exception skips the rest of the function body. *)
#[global] Instance result_ret : MRet result := fun _ a => Return a.
#[global] Instance result_bind : MBind result := fun _ _ k r =>
  match r with
  | Return a => k a
  | Raise e => Raise e
  end.

(** ** Constants of the module *)

Definition CODE_LEN : nat := 6.
Definition MAX_URL_LEN : Z := 2048.
Definition RATE_LIMIT_BURST : Z := 10.
Definition RATE_LIMIT_WINDOW : Z := 60.

(** ** [str.strip()] *)

(** [str.isspace] on one code point: the white space of the Unicode
    database, as CPython's [_PyUnicode_IsWhitespace] lists it. *)
Definition isspace (c : N) : bool :=
  ((9 <=? c) && (c <=? 13) || (28 <=? c) && (c <=? 32)
   || (c =? 133) || (c =? 160) || (c =? 5760)
   || (8192 <=? c) && (c <=? 8202)
   || (c =? 8232) || (c =? 8233) || (c =? 8239) || (c =? 8287)
   || (c =? 12288))%N.

Fixpoint lstrip (u : str) : str :=
  match u with
  | [] => []
  | c :: r => if isspace c then lstrip r else u
  end.

Definition rstrip (u : str) : str := rev (lstrip (rev u)).

Definition strip (u : str) : str := rstrip (lstrip u).

(** [head_ok u]: [u] does not start with white space. *)
Definition head_ok (u : str) : Prop :=
  match u with [] => True | c :: _ => isspace c = false end.

(** [stripped u]: [u] neither starts nor ends with white space. *)
Definition stripped (u : str) : Prop := head_ok u /\ head_ok (rev u).

(** ** [normalize_url] *)

(** The two fields of [urllib.parse.ParseResult] that [normalize_url]
    reads. *)
Record ParseResult : Type := mkParse { scheme : str; netloc : str }.

Definition is_empty (u : str) : bool :=
  match u with [] => true | _ => false end.

Section Normalize.

(** [urllib.parse.urlparse] belongs to the Python library, not to the
    application: the handlers are stated over any parser, which may
    itself raise [ValueError]. *)
Variable urlparse : str -> result ParseResult.

Definition normalize_url (u : str) : result str :=
  let u := strip u in
  if is_empty u then Return u
  else
    parsed ← urlparse u;
    '(u, parsed) ← (if is_empty (scheme parsed)
                    then (let u' := py "https://" ++ u in
                          parsed' ← urlparse u'; Return (u', parsed'))
                    else Return (u, parsed));
    if negb (str_eqb (scheme parsed) (py "http")
             || str_eqb (scheme parsed) (py "https"))
    then Raise (ValueError "Only http/https URLs are supported.")
    else if is_empty (netloc parsed)
    then Raise (ValueError "Invalid URL host.")
    else if len u >? MAX_URL_LEN
    then Raise (ValueError "URL is too long.")
    else Return u.

End Normalize.

(** The three rejections of [normalize_url], by the names the
    specification gives them. *)
Definition UnsupportedScheme : exn := ValueError "Only http/https URLs are supported.".
Definition InvalidHost : exn := ValueError "Invalid URL host.".
Definition URLTooLong : exn := ValueError "URL is too long.".

(** Normalisation as the specification words it, to compare with
    [normalize_url]: trim; prepend [https://] when no scheme is present;
    reject a scheme other than http and https, then a missing host, then
    a length above 2048; otherwise return the URL. *)
Definition normalize_url_spec (parse : str -> result ParseResult) (raw : str)
  : result str :=
  let u := strip raw in
  p ← parse u;
  let v := if is_empty (scheme p) then py "https://" ++ u else u in
  q ← parse v;
  if negb (str_eqb (scheme q) (py "http") || str_eqb (scheme q) (py "https"))
  then Raise UnsupportedScheme
  else if is_empty (netloc q) then Raise InvalidHost
  else if Z.of_nat (length v) >? 2048 then Raise URLTooLong
  else Return v.

(** ** [urllib.parse.urlparse] of CPython 3.11

    The parser of the Python library, for the examples that run the
    handlers on concrete URLs: [urlsplit] as far as it decides [scheme]
    and [netloc] ([urlparse] then only splits the path further).  Two of
    its validations need tables of the library (the [ipaddress] module
    for a bracketed host, Unicode NFKC normalisation for a non-ASCII
    [netloc]) and are taken as arguments. *)

Definition isascii (c : N) : bool := (c <? 128)%N.
Definition isupper_ascii (c : N) : bool := ((65 <=? c) && (c <=? 90))%N.
Definition isalpha_ascii (c : N) : bool :=
  isupper_ascii c || ((97 <=? c) && (c <=? 122))%N.
Definition isdigit_ascii (c : N) : bool := ((48 <=? c) && (c <=? 57))%N.

(** [c in scheme_chars]: letters, digits and [+-.] *)
Definition scheme_char (c : N) : bool :=
  (isalpha_ascii c || isdigit_ascii c || (c =? 43) || (c =? 45) || (c =? 46))%N.

(** [str.lower] on the characters of a scheme *)
Definition lower (c : N) : N := if isupper_ascii c then (c + 32)%N else c.

(** [_WHATWG_C0_CONTROL_OR_SPACE]: code points 0 to 32 *)
Fixpoint lstrip_c0 (u : str) : str :=
  match u with
  | [] => []
  | c :: r => if (c <=? 32)%N then lstrip_c0 r else u
  end.

(** [_UNSAFE_URL_BYTES_TO_REMOVE]: tab, carriage return, newline *)
Definition unsafe_byte (c : N) : bool := ((c =? 9) || (c =? 13) || (c =? 10))%N.

(** [url.find(c)] *)
Fixpoint find_char (c : N) (u : str) : option nat :=
  match u with
  | [] => None
  | x :: r => if (x =? c)%N then Some O else S <$> find_char c r
  end.

Definition contains (c : N) (u : str) : bool := existsb (N.eqb c) u.

(** [_splitnetloc(url, 2)]: the text after [//] up to the first of [/?#] *)
Fixpoint upto_delim (u : str) : str :=
  match u with
  | [] => []
  | c :: r => if ((c =? 47) || (c =? 63) || (c =? 35))%N then []
              else c :: upto_delim r
  end.

Section Urlparse.

Variable check_bracketed_netloc : str -> result unit.
Variable nfkc_check : str -> result unit.

Definition checknetloc (nl : str) : result unit :=
  if is_empty nl || forallb isascii nl then Return tt else nfkc_check nl.

Definition urlparse (url : str) : result ParseResult :=
  let url := lstrip_c0 url in
  let url := List.filter (fun c => negb (unsafe_byte c)) url in
  let '(sch, url) :=
    match find_char 58 url, url with
    | Some (S _ as i), c0 :: _ =>
        if isascii c0 && isalpha_ascii c0 && forallb scheme_char (take i url)
        then (List.map lower (take i url), drop (S i) url)
        else ([], url)
    | _, _ => ([], url)
    end in
  if str_eqb (take 2 url) (py "//")
  then
    let nl := upto_delim (drop 2 url) in
    if contains 91 nl && negb (contains 93 nl)
       || contains 93 nl && negb (contains 91 nl)
    then Raise (ValueError "Invalid IPv6 URL")
    else
      _ ← (if contains 91 nl && contains 93 nl
           then check_bracketed_netloc nl else Return tt);
      _ ← checknetloc nl;
      Return (mkParse sch nl)
  else
    _ ← checknetloc [];
    Return (mkParse sch []).

End Urlparse.

(** The parser on URLs whose host is ASCII and not bracketed, where the
    two library validations have nothing to reject. *)
Definition urlparse_ascii : str -> result ParseResult :=
  urlparse (fun _ => Return tt) (fun _ => Return tt).

(** ** The rate limiter *)

(** A [datetime] as its number of microseconds. *)
Definition timedelta (seconds : Z) : Z := seconds * 1000000.

(** [rate_limited(key)], with [now] the reading of [datetime.utcnow()];
    the result comes with the updated [_rate_bucket]. *)
Definition rate_limited (key : str) (now : Z) (rate_bucket : gmap str (list Z))
  : bool * gmap str (list Z) :=
  let window_start := now - timedelta RATE_LIMIT_WINDOW in
  let bucket := default [] (rate_bucket !! key) in
  let bucket := List.filter (fun t => t >? window_start) bucket in
  let allowed := Z.of_nat (length bucket) <? RATE_LIMIT_BURST in
  let bucket := if allowed then bucket ++ [now] else bucket in
  (negb allowed, <[key := bucket]> rate_bucket).

(** The timestamps of [bucket] that a check at [now] keeps: those
    younger than the window. *)
Definition in_window (now : Z) (bucket : list Z) : list Z :=
  List.filter (fun t => t >? now - timedelta RATE_LIMIT_WINDOW) bucket.

(** The timestamps of [b] above [w]. *)
Definition above (w : Z) (b : list Z) : list Z := List.filter (fun t => t >? w) b.

(** Successive checks of one key at the times [ts]: what each returned,
    and the final [_rate_bucket]. *)
Fixpoint rate_calls (key : str) (ts : list Z) (rate_bucket : gmap str (list Z))
  : list bool * gmap str (list Z) :=
  match ts with
  | [] => ([], rate_bucket)
  | t :: ts' =>
      let '(limited, rb) := rate_limited key t rate_bucket in
      let '(ls, rb') := rate_calls key ts' rb in
      (limited :: ls, rb')
  end.

(** ** The table [urls] *)

(** One row of [urls].  [code] is the primary key; the column defaults
    are those of [init_db]: [created_at] is [datetime('now')], [clicks]
    is 0 and [last_accessed] is NULL.  SQLite times are counted in
    seconds. *)
Record row : Type := mkRow {
  code : str;
  long_url : str;
  created_at : Z;
  clicks : Z;
  last_accessed : option Z
}.

(** The table is the sequence of its rows: that no two rows share a
    [code] is not built into the type but enforced by [sql_insert]. *)
Abbreviation table := (list row).

(** [CREATE TABLE IF NOT EXISTS urls]: the table starts empty. *)
Definition init_db : table := [].

(** [SELECT ... FROM urls WHERE code=?] followed by [fetchone()] *)
Definition sql_select (db : table) (c : str) : option row :=
  List.find (fun r => str_eqb (code r) c) db.

(** [INSERT INTO urls (code, long_url) VALUES (?, ?)]: the primary key
    rejects a [code] that a row already has.  The storage engine is
    taken to work here and in [sql_select]: a failure of the engine
    itself (a locked database) is modelled for the [UPDATE] of [go]
    only, so nothing below says that [create] cannot raise. *)
Definition sql_insert (db : table) (c u : str) (sqlite_now : Z) : result table :=
  match sql_select db c with
  | Some _ => Raise IntegrityError
  | None => Return (db ++ [mkRow c u sqlite_now 0 None])
  end.

(** The range of an SQLite INTEGER, a signed 64-bit number. *)
Definition INT64_MIN : Z := -9223372036854775808.
Definition INT64_MAX : Z := 9223372036854775807.

(** [clicks+1] as SQLite computes it, on the numeric value of the
    column.  A value in the 64-bit range is stored as an INTEGER and
    the sum is exact; at [INT64_MAX] the addition overflows and SQLite
    answers with the REAL [2^63], which the column keeps as a REAL.  A
    value outside the range is such a REAL, of magnitude [2^63] or
    more, where doubles are 2048 apart: adding 1 to it is lost in
    rounding. *)
Definition sqlite_incr (n : Z) : Z :=
  if (INT64_MIN <=? n) && (n <=? INT64_MAX) then n + 1 else n.

Definition click (sqlite_now : Z) (r : row) : row :=
  mkRow (code r) (long_url r) (created_at r) (sqlite_incr (clicks r)) (Some sqlite_now).

(** [UPDATE urls SET clicks=clicks+1, last_accessed=datetime('now')
    WHERE code=?].  [fails] tells whether the storage engine raises
    (a locked or unavailable database) instead of updating. *)
Definition sql_update_click (fails : bool) (db : table) (c : str) (sqlite_now : Z)
  : result table :=
  if fails then Raise OperationalError
  else Return (List.map (fun r => if str_eqb (code r) c then click sqlite_now r else r) db).

(** ** The handlers *)

Inductive body : Type :=
| JsonError (error : string)
| JsonLink (code long_url : str).

Inductive response : Type :=
| Jsonify (status : Z) (b : body)
| Redirect (location : str)
| Abort (status : Z).

(** [CUSTOM_CODE_REGEX.match(s)] for [^[A-Za-z0-9_-]{3,32}$]: in Python
    [$] matches at the end of the string and also just before a newline
    that ends it. *)
Definition code_char (c : N) : bool :=
  (isalpha_ascii c || isdigit_ascii c || (c =? 95) || (c =? 45))%N.

Definition code_run (s : str) : bool :=
  forallb code_char s && (3 <=? Z.of_nat (length s)) && (Z.of_nat (length s) <=? 32).

Definition CUSTOM_CODE_REGEX_match (s : str) : bool :=
  code_run s
  || match rev s with
     | c :: r => (c =? 10)%N && code_run (rev r)
     | [] => false
     end.

(** The two messages of [create] about the code, by the names the
    specification gives them. *)
Definition InvalidCodeFormat : string :=
  "Custom code: 3–32 chars (A–Z, a–z, 0–9, _ or -)".
Definition CodeTaken : string := "That code is already taken".

(** What a request carries: [request.remote_addr] and the two form
    fields, each of which may be missing. *)
Record request : Type := mkRequest {
  remote_addr : str;
  form_long_url : option str;
  form_custom_code : option str
}.

(** What a handler reads from outside while it runs: the clock of the
    process, the clock of SQLite, and the successive results of
    [random_code()]. *)
Record env : Type := mkEnv {
  utcnow : Z;
  sqlite_now : Z;
  random_code : nat -> str
}.

Record state : Type := mkState {
  rate_bucket : gmap str (list Z);
  urls : table
}.

(** [for _ in range(n): code = random_code(); if not SELECT: break].
    [i] counts the draws made so far; [code] is the value the variable
    holds when the loop is left without [break]. *)
Fixpoint for_range (n i : nat) (draw : nat -> str) (db : table) (code : str) : str :=
  match n with
  | O => code
  | S n' =>
      let code := draw i in
      match sql_select db code with
      | None => code
      | Some _ => for_range n' (S i) draw db code
      end
  end.

Section Handlers.

Variable parse : str -> result ParseResult.

(** [POST /shorten].  A [ValueError] of [normalize_url] and an
    [IntegrityError] of the [INSERT] are caught; any other exception
    leaves the handler. *)
Definition create (req : request) (e : env) (st : state) : result response * state :=
  let client_ip := remote_addr req in
  let '(limited, rb) :=
    rate_limited (py "create:" ++ client_ip) (utcnow e) (rate_bucket st) in
  let st := mkState rb (urls st) in
  if limited then (Return (Jsonify 429 (JsonError "Too many requests")), st)
  else
    let long_url := default [] (form_long_url req) in
    let custom_code := strip (default [] (form_custom_code req)) in
    match normalize_url parse long_url with
    | Raise (ValueError msg) => (Return (Jsonify 200 (JsonError msg)), st)
    | Raise ex => (Raise ex, st)
    | Return long_url =>
        let db := urls st in
        let checked :=
          if negb (is_empty custom_code)
          then if negb (CUSTOM_CODE_REGEX_match custom_code)
               then None else Some custom_code
          else Some (for_range 10 0 (random_code e) db []) in
        match checked with
        | None =>
            (Return (Jsonify 200 (JsonError
               "Custom code: 3–32 chars (A–Z, a–z, 0–9, _ or -)")), st)
        | Some code =>
            match sql_insert db code long_url (sqlite_now e) with
            | Raise IntegrityError =>
                (Return (Jsonify 200 (JsonError "That code is already taken")), st)
            | Raise ex => (Raise ex, st)
            | Return db' =>
                (Return (Jsonify 200 (JsonLink code long_url)), mkState rb db')
            end
        end
    end.

(** [GET /<code>].  Nothing in [go] catches an exception of the
    [UPDATE]: it leaves the handler, and nothing is committed. *)
Definition go (c : str) (sqlite_now : Z) (update_fails : bool) (st : state)
  : result response * state :=
  match sql_select (urls st) c with
  | None => (Return (Abort 404), st)
  | Some r =>
      match sql_update_click update_fails (urls st) c sqlite_now with
      | Raise ex => (Raise ex, st)
      | Return db' => (Return (Redirect (long_url r)), mkState (rate_bucket st) db')
      end
  end.

(** A run of requests against one process. *)
Inductive call : Type :=
| Shorten (req : request) (e : env)
| Resolve (c : str) (sqlite_now : Z) (update_fails : bool).

Definition step (st : state) (k : call) : state :=
  match k with
  | Shorten req e => snd (create req e st)
  | Resolve c t f => snd (go c t f st)
  end.

Definition run (ks : list call) (st : state) : state := fold_left step ks st.

(** [n] successive resolutions of [c], at the times [ts], the storage
    engine working: the responses and the final state. *)
Fixpoint resolve_all (c : str) (ts : list Z) (st : state)
  : list (result response) * state :=
  match ts with
  | [] => ([], st)
  | t :: ts' =>
      let '(r, st') := go c t false st in
      let '(rs, st'') := resolve_all c ts' st' in
      (r :: rs, st'')
  end.

End Handlers.

Definition empty_state : state := mkState ∅ init_db.

(** ** [random_code] *)

(** [string.ascii_letters + string.digits] *)
Definition CODE_CHARS : str :=
  py "abcdefghijklmnopqrstuvwxyzABCDEFGHIJKLMNOPQRSTUVWXYZ0123456789".

(** [random_code(n)]: [n] characters, the [i]-th being
    [secrets.choice(CODE_CHARS)], that is [CODE_CHARS[k]] for the index
    [k = randbelow i] that the random source returns below
    [len(CODE_CHARS)]. *)
Definition random_code_gen (n : nat) (randbelow : nat -> nat) : str :=
  List.map (fun i => nth (randbelow i) CODE_CHARS 0%N) (seq 0 n).

(** ** Runs of the limiter and of the table *)

(** No bucket of the limiter holds more than [RATE_LIMIT_BURST]
    timestamps. *)
Definition bounded (rb : gmap str (list Z)) : Prop :=
  forall (k : str) (b : list Z), rb !! k = Some b -> (length b <= 10)%nat.

(** Successive checks, each with its key and its time. *)
Fixpoint rate_run (calls : list (str * Z)) (rate_bucket : gmap str (list Z))
  : gmap str (list Z) :=
  match calls with
  | [] => rate_bucket
  | (key, t) :: calls' => rate_run calls' (snd (rate_limited key t rate_bucket))
  end.

(** [r'] is [r] some clicks later: the same code, URL and creation
    time, and no fewer clicks. *)
Definition grows (r r' : row) : Prop :=
  code r' = code r /\ long_url r' = long_url r /\ created_at r' = created_at r
  /\ clicks r <= clicks r'.

(** The draws of a request are codes of the shape [random_code]
    produces. *)
Definition draws_ok (k : call) : Prop :=
  match k with
  | Shorten _ e => forall i, code_run (random_code e i) = true
  | Resolve _ _ _ => True
  end.

(** ** [qr_png] *)

(** What [GET /qr/<code>.png] answers: [abort(404)], or the PNG, of the
    given MIME type, of the QR code that encodes [text]. *)
Inductive png_response : Type :=
| PngAbort (status : Z)
| SendFile (mimetype : string) (text : str).

(** [qr_png(code)], with [host_url] the value of [request.host_url]. *)
Definition qr_png (host_url c : str) (st : state) : png_response * state :=
  match sql_select (urls st) c with
  | None => (PngAbort 404, st)
  | Some _ => (SendFile "image/png" (host_url ++ c), st)
  end.

(** ** Facts about [strip] *)

Lemma lstrip_fix u : head_ok u -> lstrip u = u.
Proof. destruct u as [|c r]; simpl; [done|]. by intros ->. Qed.

Lemma lstrip_head_ok u : head_ok (lstrip u).
Proof.
  induction u as [|c r IH]; simpl; [done|].
  destruct (isspace c) eqn:E; [done|]. simpl. exact E.
Qed.

Lemma lstrip_suffix u : exists p, u = p ++ lstrip u.
Proof.
  induction u as [|c r [p Hp]]; simpl.
  - by exists [].
  - destruct (isspace c).
    + exists (c :: p). simpl. by rewrite <- Hp.
    + by exists [].
Qed.

Lemma head_ok_app_l (a b : str) : head_ok (a ++ b) -> head_ok a.
Proof. destruct a; simpl; done. Qed.

Lemma head_ok_app (a b : str) : a <> [] -> head_ok a -> head_ok (a ++ b).
Proof. destruct a; simpl; done. Qed.

Lemma rstrip_head_ok u : head_ok u -> head_ok (rstrip u).
Proof.
  intros H. unfold rstrip.
  destruct (lstrip_suffix (rev u)) as [p Hp].
  apply (f_equal (@rev N)) in Hp.
  rewrite rev_involutive, rev_app_distr in Hp.
  rewrite Hp in H. by apply head_ok_app_l in H.
Qed.

Lemma strip_stripped u : stripped (strip u).
Proof.
  split.
  - apply rstrip_head_ok, lstrip_head_ok.
  - unfold strip, rstrip. rewrite rev_involutive. apply lstrip_head_ok.
Qed.

Lemma stripped_strip u : stripped u -> strip u = u.
Proof.
  intros [H1 H2]. unfold strip, rstrip.
  rewrite (lstrip_fix u H1), (lstrip_fix _ H2). apply rev_involutive.
Qed.

Lemma strip_idempotent u : strip (strip u) = strip u.
Proof. apply stripped_strip, strip_stripped. Qed.

Lemma stripped_prefix (p u : str) :
  p <> [] -> head_ok p -> u <> [] -> stripped u -> stripped (p ++ u).
Proof.
  intros Hp Hh Hu [H1 H2]. split.
  - by apply head_ok_app.
  - rewrite rev_app_distr. apply head_ok_app; [|done].
    intros E. apply Hu. apply (f_equal (@rev N)) in E.
    by rewrite rev_involutive in E.
Qed.

Lemma is_empty_true (u : str) : is_empty u = true <-> u = [].
Proof. destruct u; simpl; split; done. Qed.

Lemma is_empty_false (u : str) : is_empty u = false <-> u <> [].
Proof. destruct u; simpl; split; done. Qed.

Lemma str_eqb_eq (a b : str) : str_eqb a b = true <-> a = b.
Proof.
  revert b. induction a as [|x a IH]; intros [|y b]; simpl; try (split; done).
  rewrite andb_true_iff, N.eqb_eq, IH. split.
  - by intros [-> ->].
  - intros [= -> ->]. done.
Qed.

Lemma strip_https (u : str) :
  u <> [] -> stripped u -> strip (py "https://" ++ u) = py "https://" ++ u.
Proof.
  intros Hu Hs. apply stripped_strip, stripped_prefix; try done.
Qed.

(** ** [normalize_url] *)

Lemma normalize_url_empty parse (raw : str) :
  strip raw = [] -> normalize_url parse raw = Return [].
Proof. intros H. unfold normalize_url. by rewrite H. Qed.

Ltac bind_step := unfold mbind, result_bind; cbv beta iota.

Lemma normalize_url_nonempty parse (raw : str) :
  strip raw <> [] -> normalize_url parse raw = normalize_url_spec parse raw.
Proof.
  intros H. unfold normalize_url, normalize_url_spec.
  apply is_empty_false in H. rewrite H. bind_step.
  destruct (parse (strip raw)) as [p|ex] eqn:Ep; [|done].
  destruct (is_empty (scheme p)) eqn:Es.
  - by destruct (parse (py "https://" ++ strip raw)).
  - by rewrite Ep.
Qed.

(** What a successful normalisation of a non-empty text went through. *)
Lemma normalize_url_spec_return parse (raw v : str) :
  normalize_url_spec parse raw = Return v ->
  exists q, parse v = Return q
    /\ (str_eqb (scheme q) (py "http") || str_eqb (scheme q) (py "https")) = true
    /\ is_empty (netloc q) = false
    /\ (Z.of_nat (length v) >? 2048) = false
    /\ (v = strip raw \/ v = py "https://" ++ strip raw).
Proof.
  unfold normalize_url_spec. bind_step.
  destruct (parse (strip raw)) as [p|ex]; [|done].
  set (w := if is_empty (scheme p) then py "https://" ++ strip raw else strip raw).
  assert (Hw : w = strip raw \/ w = py "https://" ++ strip raw).
  { subst w. destruct (is_empty (scheme p)); auto. }
  clearbody w.
  destruct (parse w) as [q|ex] eqn:Eq; [|done].
  destruct (str_eqb (scheme q) (py "http") || str_eqb (scheme q) (py "https")) eqn:E1;
    cbv beta iota delta [negb]; [|done].
  destruct (is_empty (netloc q)) eqn:E2; [done|].
  destruct (Z.of_nat (length w) >? 2048) eqn:E3; [done|].
  intros [= <-]. exists q. rewrite E1. auto.
Qed.

Lemma scheme_not_empty (q : ParseResult) :
  (str_eqb (scheme q) (py "http") || str_eqb (scheme q) (py "https")) = true ->
  is_empty (scheme q) = false.
Proof.
  intros H. apply orb_true_iff in H as [H|H]; apply str_eqb_eq in H; by rewrite H.
Qed.

(** C9: [normalize_url] is idempotent: on every text it accepts, it
    accepts its own result and returns it unchanged. *)
Theorem normalize_url_idempotent parse (u v : str) :
  normalize_url parse u = Return v -> normalize_url parse v = Return v.
Proof.
  intros H. destruct (is_empty (strip u)) eqn:Eu.
  - apply is_empty_true in Eu. rewrite (normalize_url_empty _ _ Eu) in H.
    injection H as <-. by apply normalize_url_empty.
  - apply is_empty_false in Eu. rewrite (normalize_url_nonempty _ _ Eu) in H.
    destruct (normalize_url_spec_return _ _ _ H) as (q & Hq & Hs & Hn & Hl & Hv).
    assert (Hfix : strip v = v).
    { destruct Hv as [->| ->].
      - apply strip_idempotent.
      - apply strip_https; [done|apply strip_stripped]. }
    assert (Hne : strip v <> []).
    { rewrite Hfix. destruct Hv as [->| ->]; [done|]. by destruct (strip u). }
    rewrite (normalize_url_nonempty _ _ Hne). unfold normalize_url_spec.
    rewrite Hfix. bind_step. rewrite Hq, (scheme_not_empty _ Hs), Hq.
    by rewrite Hs, Hn, Hl.
Qed.

Lemma normalize_url_idempotent_witness :
  normalize_url urlparse_ascii (py "https://example.com/x")
  = Return (py "https://example.com/x").
Proof.
  apply (normalize_url_idempotent urlparse_ascii (py " example.com/x ")).
  vm_compute. reflexivity.
Defined.




(** ** The rate limiter *)

Lemma rate_limited_fst (key : str) (now : Z) (rb : gmap str (list Z)) :
  fst (rate_limited key now rb)
  = negb (Z.of_nat (length (in_window now (default [] (rb !! key)))) <? RATE_LIMIT_BURST).
Proof. reflexivity. Qed.

Lemma rate_limited_snd (key : str) (now : Z) (rb : gmap str (list Z)) :
  snd (rate_limited key now rb)
  = <[key := if fst (rate_limited key now rb)
             then in_window now (default [] (rb !! key))
             else in_window now (default [] (rb !! key)) ++ [now]]> rb.
Proof.
  unfold rate_limited, in_window. cbn [fst snd].
  by destruct (Z.of_nat _ <? RATE_LIMIT_BURST).
Qed.

Lemma rate_limited_lookup (key : str) (now : Z) (rb : gmap str (list Z)) :
  snd (rate_limited key now rb) !! key
  = Some (if fst (rate_limited key now rb)
          then in_window now (default [] (rb !! key))
          else in_window now (default [] (rb !! key)) ++ [now]).
Proof. rewrite rate_limited_snd. apply lookup_insert_eq. Qed.

Lemma rate_limited_admits (key : str) (now : Z) (rb : gmap str (list Z)) :
  fst (rate_limited key now rb) = false
  <-> (length (in_window now (default [] (rb !! key))) < 10)%nat.
Proof.
  rewrite rate_limited_fst. unfold RATE_LIMIT_BURST.
  rewrite negb_false_iff, Z.ltb_lt. lia.
Qed.

Lemma above_above (w w' : Z) (b : list Z) :
  w' <= w -> above w (above w' b) = above w b.
Proof.
  intros Hw. unfold above. induction b as [|x b IH]; [done|]. cbn [List.filter].
  destruct (x >? w') eqn:E1; cbn [List.filter].
  - by rewrite IH.
  - rewrite IH. destruct (x >? w) eqn:E2; [|done]. lia.
Qed.

Lemma above_app (w : Z) (a b : list Z) : above w (a ++ b) = above w a ++ above w b.
Proof. apply List.filter_app. Qed.

Lemma in_window_above (now : Z) (b : list Z) : in_window now b = above (now - timedelta RATE_LIMIT_WINDOW) b.
Proof. reflexivity. Qed.

(** An admitted check at [t] adds one timestamp above every [w] with
    [t - window <= w < t]. *)
Lemma admitted_above (key : str) (t w : Z) (rb : gmap str (list Z)) :
  fst (rate_limited key t rb) = false ->
  t - timedelta RATE_LIMIT_WINDOW <= w -> w < t ->
  length (above w (default [] (snd (rate_limited key t rb) !! key)))
  = S (length (above w (default [] (rb !! key)))).
Proof.
  intros Ha Hw Ht. rewrite rate_limited_lookup, Ha.
  change (default [] (Some ?x)) with x.
  rewrite above_app, in_window_above, above_above by done.
  rewrite length_app. unfold above at 2. cbn [List.filter].
  destruct (t >? w) eqn:E; [cbn; lia | lia].
Qed.

Lemma rate_calls_above (key : str) (ts : list Z) (w : Z) (rb : gmap str (list Z)) :
  fst (rate_calls key ts rb) = repeat false (length ts) ->
  (forall t, In t ts -> t - timedelta RATE_LIMIT_WINDOW <= w /\ w < t) ->
  length (above w (default [] (snd (rate_calls key ts rb) !! key)))
  = (length ts + length (above w (default [] (rb !! key))))%nat.
Proof.
  revert rb. induction ts as [|t ts IH]; intros rb Hall Hin; [done|].
  cbn [rate_calls] in *.
  destruct (rate_limited key t rb) as [limited rb1] eqn:E1.
  destruct (rate_calls key ts rb1) as [ls rb2] eqn:E2.
  cbn [fst snd length repeat] in *. injection Hall as -> Hls.
  specialize (IH rb1). rewrite E2 in IH. cbn [fst snd] in IH.
  rewrite IH; [|done|intros; apply Hin; by right].
  pose proof (admitted_above key t w rb) as H1. rewrite E1 in H1. cbn [fst snd] in H1.
  destruct (Hin t (or_introl eq_refl)) as [Ha Hb].
  rewrite H1 by done. lia.
Qed.

(** C5: a check first drops the timestamps that left the 60-second
    window, admits exactly when fewer than 10 remain, and records the
    current time only when it admits; so after 10 admitted checks whose
    times all lie in the window of an 11th, the 11th is denied, and a
    check made when every recorded timestamp has left the window is
    admitted. *)
Theorem rate_limited_sliding_window (key : str) (now : Z) (rb : gmap str (list Z)) :
  let live := in_window now (default [] (rb !! key)) in
  (fst (rate_limited key now rb) = false <-> (length live < 10)%nat)
  /\ snd (rate_limited key now rb) !! key
     = Some (if fst (rate_limited key now rb) then live else live ++ [now])
  /\ (forall ts : list Z,
        length ts = 10%nat ->
        (forall t, In t ts -> now - timedelta 60 < t /\ t <= now) ->
        fst (rate_calls key ts rb) = repeat false 10 ->
        fst (rate_limited key now (snd (rate_calls key ts rb))) = true)
  /\ ((forall t, In t (default [] (rb !! key)) -> t + timedelta 60 <= now) ->
      fst (rate_limited key now rb) = false).
Proof.
  intros live. split; [apply rate_limited_admits|].
  split; [apply rate_limited_lookup|]. split.
  - intros ts Hlen Hin Hall.
    destruct (fst (rate_limited key now _)) eqn:E; [done|].
    apply rate_limited_admits in E. rewrite in_window_above in E.
    rewrite (rate_calls_above key ts) in E.
    + lia.
    + by rewrite Hlen.
    + intros t Ht. destruct (Hin t Ht). unfold RATE_LIMIT_WINDOW. lia.
  - intros Hold. apply rate_limited_admits.
    assert (Hnil : in_window now (default [] (rb !! key)) = []).
    { unfold in_window. induction (default [] (rb !! key)) as [|x b IH]; [done|].
      cbn [List.filter]. pose proof (Hold x (or_introl eq_refl)) as Hx.
      destruct (x >? _) eqn:E.
      - unfold RATE_LIMIT_WINDOW in E. lia.
      - apply IH. intros; apply Hold; by right. }
    rewrite Hnil. cbn. lia.
Qed.

Lemma rate_limited_sliding_window_witness :
  let key := py "create:10.0.0.7" in
  let ts := [1; 2; 3; 4; 5; 6; 7; 8; 9; 10] in
  let rb := snd (rate_calls key ts ∅) in
  (fst (rate_calls key ts ∅) = repeat false 10
   /\ fst (rate_limited key 11 rb) = true)
  /\ ((forall t, In t (default [] (rb !! key)) -> t + timedelta 60 <= 10 + timedelta 60)
      /\ fst (rate_limited key (10 + timedelta 60) rb) = false).
Proof.
  intros key ts rb. split.
  - assert (Hall : fst (rate_calls key ts ∅) = repeat false 10)
      by (vm_compute; reflexivity).
    split; [exact Hall|].
    destruct (rate_limited_sliding_window key 11 ∅) as (_ & _ & H & _).
    apply (H ts); [reflexivity| |exact Hall].
    intros t Ht. unfold timedelta. cbn in Ht.
    repeat (destruct Ht as [<-|Ht]; [lia|]). destruct Ht.
  - assert (Hold : forall t, In t (default [] (rb !! key)) ->
                             t + timedelta 60 <= 10 + timedelta 60).
    { intros t Ht. vm_compute in Ht.
      repeat (destruct Ht as [<-|Ht]; [vm_compute; discriminate|]). destruct Ht. }
    split; [exact Hold|].
    destruct (rate_limited_sliding_window key (10 + timedelta 60) rb) as (_ & _ & _ & H).
    exact (H Hold).
Defined.

(** ** The table [urls] *)

Lemma sql_select_present (db : table) (c : str) :
  In c (List.map code db) <-> sql_select db c <> None.
Proof.
  unfold sql_select. induction db as [|r db IH]; cbn [List.map List.find In].
  - split; [done|]. intros H. by elim H.
  - destruct (str_eqb (code r) c) eqn:E.
    + apply str_eqb_eq in E. split; [done|]. intros _. by left.
    + rewrite <- IH. split; [|tauto]. intros [H|H]; [|done].
      apply str_eqb_eq in H. congruence.
Qed.

Lemma sql_select_absent (db : table) (c : str) :
  ~ In c (List.map code db) <-> sql_select db c = None.
Proof.
  rewrite sql_select_present. destruct (sql_select db c) as [r|].
  - split; [|done]. intros H. elim H. done.
  - split; [done|]. intros _ H. by apply H.
Qed.

Lemma sql_insert_present (db : table) (c u : str) (t : Z) :
  In c (List.map code db) -> sql_insert db c u t = Raise IntegrityError.
Proof.
  intros H. apply sql_select_present in H. unfold sql_insert.
  by destruct (sql_select db c).
Qed.

Lemma sql_insert_absent (db : table) (c u : str) (t : Z) :
  ~ In c (List.map code db) ->
  sql_insert db c u t = Return (db ++ [mkRow c u t 0 None]).
Proof. intros H. apply sql_select_absent in H. unfold sql_insert. by rewrite H. Qed.

Lemma sql_insert_return (db db' : table) (c u : str) (t : Z) :
  sql_insert db c u t = Return db' ->
  ~ In c (List.map code db) /\ db' = db ++ [mkRow c u t 0 None].
Proof.
  unfold sql_insert. destruct (sql_select db c) eqn:E; [done|].
  intros [= <-]. split; [|done]. by apply sql_select_absent.
Qed.

Lemma NoDup_snoc (l : list str) (c : str) :
  ~ In c l -> List.NoDup l -> List.NoDup (l ++ [c]).
Proof.
  induction l as [|x l IH]; intros Hc Hn; cbn [app].
  - constructor; [intros []|constructor].
  - inversion Hn as [|? ? Hx Hl]; subst. constructor.
    + intros Hin. apply List.in_app_or in Hin as [Hin|[<-|[]]]; [done|].
      apply Hc. by left.
    + apply IH; [|done]. intros Hin. apply Hc. by right.
Qed.

Lemma NoDup_codes_insert (db : table) (r : row) :
  ~ In (code r) (List.map code db) ->
  List.NoDup (List.map code db) -> List.NoDup (List.map code (db ++ [r])).
Proof.
  intros Hc Hn. rewrite List.map_app. cbn [List.map]. by apply NoDup_snoc.
Qed.

Lemma codes_update (db : table) (c : str) (t : Z) :
  List.map code (List.map (fun r => if str_eqb (code r) c then click t r else r) db)
  = List.map code db.
Proof.
  rewrite List.map_map. apply List.map_ext. intros r.
  by destruct (str_eqb (code r) c).
Qed.

Lemma sql_select_update (db : table) (c : str) (t : Z) :
  sql_select (List.map (fun r => if str_eqb (code r) c then click t r else r) db) c
  = click t <$> sql_select db c.
Proof.
  unfold sql_select. induction db as [|r db IH]; [done|].
  cbn [List.map List.find]. destruct (str_eqb (code r) c) eqn:E.
  - cbn [click code]. by rewrite E.
  - by rewrite E.
Qed.

(** ** [go] *)

Lemma go_absent (c : str) (t : Z) (f : bool) (st : state) :
  sql_select (urls st) c = None -> go c t f st = (Return (Abort 404), st).
Proof. intros H. unfold go. by rewrite H. Qed.

Lemma go_present (c : str) (t : Z) (st : state) (r : row) :
  sql_select (urls st) c = Some r ->
  go c t false st
  = (Return (Redirect (long_url r)),
     mkState (rate_bucket st)
       (List.map (fun r => if str_eqb (code r) c then click t r else r) (urls st))).
Proof. intros H. unfold go. by rewrite H. Qed.

Lemma go_codes (c : str) (t : Z) (f : bool) (st : state) :
  List.map code (urls (snd (go c t f st))) = List.map code (urls st).
Proof.
  unfold go. destruct (sql_select (urls st) c); [|done].
  destruct f; cbn; [done|]. apply codes_update.
Qed.

(** C2, as the code has it: on a code of the table, [go] redirects to
    the stored URL when the [UPDATE] goes through; when the [UPDATE]
    raises, nothing catches the exception: it leaves [go], no redirect
    is returned and the table is as before. *)
Theorem go_update_failure (c : str) (t : Z) (st : state) (r : row) :
  sql_select (urls st) c = Some r ->
  fst (go c t false st) = Return (Redirect (long_url r))
  /\ go c t true st = (Raise OperationalError, st).
Proof.
  intros H. split.
  - by rewrite (go_present _ _ _ _ H).
  - unfold go. by rewrite H.
Qed.

Lemma go_update_failure_witness :
  let r := mkRow (py "abc") (py "https://example.com/") 0 0 None in
  let st := mkState ∅ [r] in
  sql_select (urls st) (py "abc") = Some r
  /\ fst (go (py "abc") 1 false st) = Return (Redirect (py "https://example.com/"))
  /\ go (py "abc") 1 true st = (Raise OperationalError, st).
Proof.
  intros r st.
  assert (H : sql_select (urls st) (py "abc") = Some r) by (vm_compute; reflexivity).
  split; [exact H|]. exact (go_update_failure (py "abc") 1 st r H).
Defined.

(** C2, as the specification states it, fails: with the code in the
    table and the [UPDATE] raising, [go] does not return the redirect. *)
Lemma go_update_failure_not_swallowed :
  let r := mkRow (py "abc") (py "https://example.com/") 0 0 None in
  let st := mkState ∅ [r] in
  sql_select (urls st) (py "abc") = Some r
  /\ fst (go (py "abc") 1 true st) <> Return (Redirect (long_url r)).
Proof. split; [vm_compute; reflexivity|]. vm_compute. discriminate. Qed.

Lemma sqlite_incr_in_range (n : Z) :
  INT64_MIN <= n -> n <= INT64_MAX -> sqlite_incr n = n + 1.
Proof.
  intros H1 H2. unfold sqlite_incr.
  destruct (INT64_MIN <=? n) eqn:E1; [|lia].
  destruct (n <=? INT64_MAX) eqn:E2; [done|lia].
Qed.

Lemma sqlite_incr_ge (n : Z) : n <= sqlite_incr n.
Proof. unfold sqlite_incr. destruct (_ && _); lia. Qed.

(** The row after the resolutions at the times [ts], while the counter
    stays an INTEGER. *)
Lemma clicks_fold (ts : list Z) (r : row) :
  INT64_MIN <= clicks r -> clicks r + Z.of_nat (length ts) <= INT64_MAX ->
  fold_left (fun r t => click t r) ts r
  = mkRow (code r) (long_url r) (created_at r) (clicks r + Z.of_nat (length ts))
      (match ts with [] => last_accessed r | _ => Some (List.last ts 0) end).
Proof.
  revert r. induction ts as [|t ts IH]; intros r Hlo Hhi.
  - cbn. rewrite Z.add_0_r. by destruct r.
  - rewrite length_cons in Hhi. cbn [fold_left].
    assert (Hc : clicks (click t r) = clicks r + 1).
    { cbn [click clicks]. apply sqlite_incr_in_range; lia. }
    rewrite IH by (rewrite Hc; lia). rewrite Hc.
    cbn [click code long_url created_at last_accessed].
    f_equal.
    + rewrite length_cons. lia.
    + destruct ts; reflexivity.
Qed.

(** Whatever the counter does, the resolutions leave the time of the
    last one. *)
Lemma last_accessed_fold (ts : list Z) (r : row) :
  ts <> [] ->
  last_accessed (fold_left (fun r t => click t r) ts r) = Some (List.last ts 0).
Proof.
  revert r. induction ts as [|t ts IH]; intros r Hts; [done|].
  cbn [fold_left]. destruct ts as [|t' ts]; [done|].
  rewrite IH by done. reflexivity.
Qed.

Lemma resolve_all_present (c : str) (ts : list Z) (st : state) (r : row) :
  sql_select (urls st) c = Some r ->
  fst (resolve_all c ts st) = repeat (Return (Redirect (long_url r))) (length ts)
  /\ sql_select (urls (snd (resolve_all c ts st))) c
     = Some (fold_left (fun r t => click t r) ts r).
Proof.
  revert st r. induction ts as [|t ts IH]; intros st r H; [done|].
  cbn [resolve_all]. rewrite (go_present _ _ _ _ H).
  set (st1 := mkState _ _).
  assert (H1 : sql_select (urls st1) c = Some (click t r)).
  { subst st1. cbn [urls]. by rewrite sql_select_update, H. }
  destruct (IH st1 _ H1) as [Ha Hb].
  destruct (resolve_all c ts st1) as [rs st2]. cbn [fst snd] in *.
  rewrite Ha, Hb. done.
Qed.

(** C6, as the code has it: [n >= 1] successive resolutions of a code
    of the table all redirect to the same stored URL and leave in its
    row the time of the last resolution, each resolution setting
    [last_accessed]; as long as the counter stays in the range of an
    SQLite INTEGER (the clicks of the row plus [n] at most [2^63 - 1]),
    they leave the row with exactly [n] more clicks; resolving a code
    that is not in the table answers 404 and changes nothing. *)
Theorem resolve_repeatedly (c : str) (st : state) :
  (forall (r : row) (ts : list Z),
     sql_select (urls st) c = Some r -> ts <> [] ->
     fst (resolve_all c ts st) = repeat (Return (Redirect (long_url r))) (length ts)
     /\ last_accessed <$> sql_select (urls (snd (resolve_all c ts st))) c
        = Some (Some (List.last ts 0))
     /\ (INT64_MIN <= clicks r -> clicks r + Z.of_nat (length ts) <= INT64_MAX ->
         sql_select (urls (snd (resolve_all c ts st))) c
         = Some (mkRow (code r) (long_url r) (created_at r)
                   (clicks r + Z.of_nat (length ts)) (Some (List.last ts 0)))))
  /\ (forall (r : row) (t : Z),
        sql_select (urls st) c = Some r ->
        INT64_MIN <= clicks r -> clicks r + 1 <= INT64_MAX ->
        sql_select (urls (snd (go c t false st))) c
        = Some (mkRow (code r) (long_url r) (created_at r) (clicks r + 1) (Some t)))
  /\ (forall (t : Z) (f : bool),
        sql_select (urls st) c = None -> go c t f st = (Return (Abort 404), st)).
Proof.
  split; [|split].
  - intros r ts H Hts. destruct (resolve_all_present c ts st r H) as [Ha Hb].
    split; [exact Ha|]. rewrite Hb. split.
    + cbn. by rewrite last_accessed_fold.
    + intros Hlo Hhi. rewrite clicks_fold by done. by destruct ts.
  - intros r t H Hlo Hhi. rewrite (go_present _ _ _ _ H). cbn [snd urls].
    rewrite sql_select_update, H. cbn. unfold click.
    by rewrite sqlite_incr_in_range by lia.
  - intros t f H. by apply go_absent.
Qed.

Lemma resolve_repeatedly_witness :
  let r := mkRow (py "abc") (py "https://example.com/") 0 4 None in
  let st := mkState ∅ [r; mkRow (py "xyz") (py "http://example.org/") 0 0 None] in
  (sql_select (urls st) (py "abc") = Some r /\ [7; 8; 9] <> []
   /\ INT64_MIN <= clicks r /\ clicks r + Z.of_nat (length [7; 8; 9]) <= INT64_MAX)
  /\ fst (resolve_all (py "abc") [7; 8; 9] st)
     = repeat (Return (Redirect (py "https://example.com/"))) 3
  /\ sql_select (urls (snd (resolve_all (py "abc") [7; 8; 9] st))) (py "abc")
     = Some (mkRow (py "abc") (py "https://example.com/") 0 7 (Some 9))
  /\ (sql_select (urls st) (py "nope") = None
      /\ go (py "nope") 7 false st = (Return (Abort 404), st)).
Proof.
  intros r st.
  assert (H : sql_select (urls st) (py "abc") = Some r) by (vm_compute; reflexivity).
  assert (Hn : sql_select (urls st) (py "nope") = None) by (vm_compute; reflexivity).
  assert (Hlo : INT64_MIN <= clicks r) by (vm_compute; discriminate).
  assert (Hhi : clicks r + Z.of_nat (length [7; 8; 9]) <= INT64_MAX)
    by (vm_compute; discriminate).
  split; [split_and!; [exact H|discriminate|exact Hlo|exact Hhi]|].
  destruct (resolve_repeatedly (py "abc") st) as (H1 & _ & _).
  destruct (H1 r [7; 8; 9] H ltac:(discriminate)) as (Ha & _ & Hb).
  split; [exact Ha|]. split; [exact (Hb Hlo Hhi)|]. split; [exact Hn|].
  destruct (resolve_repeatedly (py "nope") st) as (_ & _ & H3).
  exact (H3 7 false Hn).
Defined.

(** C6, as the specification states it, fails at the end of the range
    of an SQLite INTEGER: two resolutions of a row with [2^63 - 1]
    clicks leave it with [2^63] clicks, one more and not two. *)
Lemma resolve_clicks_overflow :
  let r := mkRow (py "abc") (py "https://example.com/") 0 INT64_MAX None in
  let st := mkState ∅ [r] in
  sql_select (urls st) (py "abc") = Some r
  /\ clicks <$> sql_select (urls (snd (resolve_all (py "abc") [7; 8] st))) (py "abc")
     = Some (INT64_MAX + 1)
  /\ sql_select (urls (snd (resolve_all (py "abc") [7; 8] st))) (py "abc")
     <> Some (mkRow (code r) (long_url r) (created_at r) (clicks r + 2) (Some 8)).
Proof.
  split; [vm_compute; reflexivity|]. split; [vm_compute; reflexivity|].
  vm_compute. discriminate.
Qed.

(** ** [create] *)

Lemma regex_match_stripped (c : str) :
  stripped c -> CUSTOM_CODE_REGEX_match c = code_run c.
Proof.
  intros [_ H]. unfold CUSTOM_CODE_REGEX_match.
  destruct (rev c) as [|x r]; [apply orb_false_r|]. cbn [head_ok] in H.
  destruct (x =? 10)%N eqn:E; [|apply orb_false_r].
  apply N.eqb_eq in E. subst x. vm_compute in H. discriminate.
Qed.

Lemma for_range_present (db : table) (draw : nat -> str) (n i : nat) (code0 : str) :
  (forall j, (i <= j < i + n)%nat -> In (draw j) (List.map code db)) ->
  (n = 0%nat -> In code0 (List.map code db)) ->
  In (for_range n i draw db code0) (List.map code db).
Proof.
  revert i code0. induction n as [|n IH]; intros i code0 Hd H0; cbn [for_range].
  - by apply H0.
  - destruct (sql_select db (draw i)) eqn:E.
    + apply IH.
      * intros j Hj. apply Hd. lia.
      * intros ->. apply Hd. lia.
    + apply Hd. lia.
Qed.

(** Whatever happens, [create] leaves the limiter as its check made it. *)
Lemma create_rate_bucket parse (req : request) (e : env) (st : state) :
  rate_bucket (snd (create parse req e st))
  = snd (rate_limited (py "create:" ++ remote_addr req) (utcnow e) (rate_bucket st)).
Proof.
  unfold create.
  destruct (rate_limited _ _ _) as [[] rb]; [done|].
  destruct (normalize_url _ _) as [u|[]]; try done.
  destruct (is_empty _); cbn [negb].
  - by destruct (sql_insert _ _ _ _) as [db'|[]].
  - destruct (CUSTOM_CODE_REGEX_match _); cbn [negb]; [|done].
    by destruct (sql_insert _ _ _ _) as [db'|[]].
Qed.

(** [create] leaves the table as it is or adds one row, whose code no
    row had and whose URL [normalize_url] returned. *)
Lemma create_urls parse (req : request) (e : env) (st : state) :
  urls (snd (create parse req e st)) = urls st
  \/ exists c u,
       ~ In c (List.map code (urls st))
       /\ normalize_url parse (default [] (form_long_url req)) = Return u
       /\ urls (snd (create parse req e st)) = urls st ++ [mkRow c u (sqlite_now e) 0 None].
Proof.
  unfold create.
  destruct (rate_limited _ _ _) as [[] rb]; [by left|].
  destruct (normalize_url _ _) as [u|[]]; try (by left).
  cbn [urls].
  destruct (is_empty _); cbn [negb].
  - destruct (sql_insert _ _ _ _) as [db'|[]] eqn:E; try (by left).
    apply sql_insert_return in E as [Hc ->]. right. eauto.
  - destruct (CUSTOM_CODE_REGEX_match _); cbn [negb]; [|by left].
    destruct (sql_insert _ _ _ _) as [db'|[]] eqn:E; try (by left).
    apply sql_insert_return in E as [Hc ->]. right. eauto.
Qed.

(** [create] writes a row only when it answers with the new link. *)
Lemma create_refused parse (req : request) (e : env) (st : state) (msg : string) :
  fst (create parse req e st) = Return (Jsonify 200 (JsonError msg)) ->
  urls (snd (create parse req e st)) = urls st.
Proof.
  unfold create.
  destruct (rate_limited _ _ _) as [[] rb]; [done|].
  destruct (normalize_url _ _) as [u|[]]; try done.
  destruct (is_empty _); cbn [negb].
  - by destruct (sql_insert _ _ _ _) as [db'|[]].
  - destruct (CUSTOM_CODE_REGEX_match _); cbn [negb]; [|done].
    by destruct (sql_insert _ _ _ _) as [db'|[]].
Qed.

(** C8: the [INSERT] creates a row only if no row has the code: on a
    code of the table it raises [IntegrityError] and yields no new
    table, so that [create] answers that the code is taken and keeps
    the table as it was; on any other code it adds the row; and no run
    of shorten and resolve requests ever leaves two rows with the same
    code. *)
Theorem codes_stay_unique parse :
  (forall (db : table) (c u : str) (t : Z),
     In c (List.map code db) -> sql_insert db c u t = Raise IntegrityError)
  /\ (forall (db : table) (c u : str) (t : Z),
        ~ In c (List.map code db) ->
        sql_insert db c u t = Return (db ++ [mkRow c u t 0 None]))
  /\ (forall (req : request) (e : env) (st : state),
        fst (create parse req e st) = Return (Jsonify 200 (JsonError CodeTaken)) ->
        urls (snd (create parse req e st)) = urls st)
  /\ (forall (ks : list call) (st : state),
        List.NoDup (List.map code (urls st)) ->
        List.NoDup (List.map code (urls (run parse ks st))))
  /\ (forall ks : list call,
        List.NoDup (List.map code (urls (run parse ks empty_state)))).
Proof.
  assert (Hrun : forall (ks : list call) (st : state),
            List.NoDup (List.map code (urls st)) ->
            List.NoDup (List.map code (urls (run parse ks st)))).
  { unfold run. induction ks as [|k ks IH]; intros st Hn; [done|].
    cbn [fold_left]. apply IH. destruct k as [req e|c t f]; cbn [step].
    - destruct (create_urls parse req e st) as [->|(c & u & Hc & _ & ->)]; [done|].
      by apply NoDup_codes_insert.
    - by rewrite go_codes. }
  split; [apply sql_insert_present|]. split; [apply sql_insert_absent|].
  split; [intros req e st; apply create_refused|].
  split; [exact Hrun|]. intros ks. apply Hrun. constructor.
Qed.

Lemma codes_stay_unique_witness :
  let r := mkRow (py "abc") (py "https://example.com/") 0 0 None in
  let req := mkRequest (py "10.0.0.7") (Some (py "example.org")) (Some (py "abc")) in
  let e := mkEnv 0 0 (fun _ => py "aaaaaa") in
  let ks := [Shorten req e; Resolve (py "abc") 1 false] in
  (In (py "abc") (List.map code [r])
   /\ sql_insert [r] (py "abc") (py "http://example.org/") 5 = Raise IntegrityError)
  /\ (~ In (py "xyz") (List.map code [r])
      /\ sql_insert [r] (py "xyz") (py "http://example.org/") 5
         = Return ([r] ++ [mkRow (py "xyz") (py "http://example.org/") 5 0 None]))
  /\ (fst (create urlparse_ascii req e (mkState ∅ [r]))
      = Return (Jsonify 200 (JsonError CodeTaken))
      /\ urls (snd (create urlparse_ascii req e (mkState ∅ [r]))) = [r])
  /\ (List.NoDup (List.map code (urls (mkState ∅ [r])))
      /\ List.NoDup (List.map code (urls (run urlparse_ascii ks (mkState ∅ [r]))))).
Proof.
  intros r req e ks.
  destruct (codes_stay_unique urlparse_ascii) as (H1 & H2 & H3 & H4 & _).
  assert (Hin : In (py "abc") (List.map code [r])) by (left; reflexivity).
  assert (Hout : ~ In (py "xyz") (List.map code [r])).
  { intros [H|[]]. vm_compute in H. discriminate. }
  assert (Ht : fst (create urlparse_ascii req e (mkState ∅ [r]))
               = Return (Jsonify 200 (JsonError CodeTaken)))
    by (vm_compute; reflexivity).
  assert (Hn : List.NoDup (List.map code (urls (mkState ∅ [r])))).
  { constructor; [intros []|constructor]. }
  split; [split; [exact Hin|exact (H1 _ _ _ _ Hin)]|].
  split; [split; [exact Hout|exact (H2 _ _ _ _ Hout)]|].
  split; [split; [exact Ht|exact (H3 _ _ _ Ht)]|].
  split; [exact Hn|exact (H4 ks _ Hn)].
Defined.

(** C10: the limiter is consulted before anything is validated: an
    admitted request leaves its time in the caller's bucket, one more
    timestamp in the window than the check found, also when the URL is
    then rejected or the custom code is malformed and no row is
    written. *)
Theorem create_records_admission parse (req : request) (e : env) (st : state) :
  let key := py "create:" ++ remote_addr req in
  let live := in_window (utcnow e) (default [] (rate_bucket st !! key)) in
  let st' := snd (create parse req e st) in
  fst (rate_limited key (utcnow e) (rate_bucket st)) = false ->
  rate_bucket st' !! key = Some (live ++ [utcnow e])
  /\ length (in_window (utcnow e) (default [] (rate_bucket st' !! key)))
     = S (length live)
  /\ (forall ex, normalize_url parse (default [] (form_long_url req)) = Raise ex ->
                 urls st' = urls st)
  /\ (strip (default [] (form_custom_code req)) <> [] ->
      CUSTOM_CODE_REGEX_match (strip (default [] (form_custom_code req))) = false ->
      urls st' = urls st).
Proof.
  cbv zeta. intros Ha.
  set (key := py "create:" ++ remote_addr req) in *.
  assert (Hb : rate_bucket (snd (create parse req e st)) !! key
               = Some (in_window (utcnow e) (default [] (rate_bucket st !! key))
                       ++ [utcnow e])).
  { rewrite create_rate_bucket. fold key. by rewrite rate_limited_lookup, Ha. }
  split; [exact Hb|]. split.
  - pose proof (admitted_above key (utcnow e) (utcnow e - timedelta RATE_LIMIT_WINDOW)
                  (rate_bucket st) Ha) as H.
    subst key. rewrite <- (create_rate_bucket parse) in H.
    rewrite !in_window_above. apply H; [lia|].
    unfold timedelta, RATE_LIMIT_WINDOW. lia.
  - subst key. split.
    + intros ex Hex. unfold create.
      destruct (rate_limited _ _ _) as [[] rb]; [done|].
      rewrite Hex. by destruct ex.
    + intros Hc Hr. unfold create.
      destruct (rate_limited _ _ _) as [[] rb]; [done|].
      destruct (normalize_url _ _) as [u|[]]; try done.
      apply is_empty_false in Hc. rewrite Hc, Hr. done.
Qed.

Lemma create_records_admission_witness :
  let req := mkRequest (py "10.0.0.7") (Some (py "ftp://example.org")) (Some (py "a")) in
  let e := mkEnv 100 0 (fun _ => py "aaaaaa") in
  let key := py "create:10.0.0.7" in
  let st := mkState {[ key := [40] ]} [] in
  let st' := snd (create urlparse_ascii req e st) in
  fst (rate_limited key 100 (rate_bucket st)) = false
  /\ rate_bucket st' !! key = Some ([40] ++ [100])
  /\ urls st' = urls st.
Proof.
  intros req e key st st'.
  assert (Ha : fst (rate_limited key 100 (rate_bucket st)) = false)
    by (vm_compute; reflexivity).
  split; [exact Ha|].
  destruct (create_records_admission urlparse_ascii req e st Ha) as (H1 & _ & H3 & _).
  split.
  - exact H1.
  - apply (H3 UnsupportedScheme). vm_compute. reflexivity.
Defined.

(** C1, as the code has it: an admitted request without a custom code,
    with a URL that normalises, all 10 of whose random codes are codes
    of the table, is answered with the message of a taken code, the same
    one a taken custom code gets; the table is unchanged. *)
Theorem create_random_exhausted parse (req : request) (e : env) (st : state) (u : str) :
  let key := py "create:" ++ remote_addr req in
  fst (rate_limited key (utcnow e) (rate_bucket st)) = false ->
  strip (default [] (form_custom_code req)) = [] ->
  normalize_url parse (default [] (form_long_url req)) = Return u ->
  (forall i, (i < 10)%nat -> In (random_code e i) (List.map code (urls st))) ->
  create parse req e st
  = (Return (Jsonify 200 (JsonError CodeTaken)),
     mkState (snd (rate_limited key (utcnow e) (rate_bucket st))) (urls st)).
Proof.
  cbv zeta. intros Ha Hc Hu Hd. unfold create.
  destruct (rate_limited _ _ _) as [limited rb]. cbn [fst snd] in *. subst limited.
  rewrite Hu, Hc. cbn [is_empty negb urls].
  rewrite sql_insert_present; [done|].
  apply for_range_present; [|done]. intros j Hj. apply Hd. lia.
Qed.

Lemma create_random_exhausted_witness :
  let req := mkRequest (py "10.0.0.7") (Some (py "example.org")) None in
  let e := mkEnv 0 0 (fun _ => py "aaaaaa") in
  let st := mkState ∅ [mkRow (py "aaaaaa") (py "https://example.com/") 0 0 None] in
  let key := py "create:10.0.0.7" in
  (fst (rate_limited key 0 ∅) = false
   /\ strip (default [] (form_custom_code req)) = []
   /\ normalize_url urlparse_ascii (py "example.org") = Return (py "https://example.org")
   /\ (forall i, (i < 10)%nat -> In (random_code e i) (List.map code (urls st))))
  /\ create urlparse_ascii req e st
     = (Return (Jsonify 200 (JsonError CodeTaken)),
        mkState (snd (rate_limited key 0 ∅)) (urls st)).
Proof.
  intros req e st key.
  assert (H1 : fst (rate_limited key 0 ∅) = false) by (vm_compute; reflexivity).
  assert (H2 : strip (default [] (form_custom_code req)) = []) by reflexivity.
  assert (H3 : normalize_url urlparse_ascii (py "example.org")
               = Return (py "https://example.org")) by (vm_compute; reflexivity).
  assert (H4 : forall i, (i < 10)%nat -> In (random_code e i) (List.map code (urls st))).
  { intros i _. left. reflexivity. }
  split; [by repeat split|].
  exact (create_random_exhausted urlparse_ascii req e st _ H1 H2 H3 H4).
Defined.

(** C1, as the specification states it, fails: when the 10 random codes
    are all taken, the answer is the one a taken custom code gets, not
    an error of its own. *)
Lemma create_random_exhausted_same_error :
  let e := mkEnv 0 0 (fun _ => py "aaaaaa") in
  let st := mkState ∅ [mkRow (py "aaaaaa") (py "https://example.com/") 0 0 None] in
  let random := mkRequest (py "10.0.0.7") (Some (py "example.org")) None in
  let custom := mkRequest (py "10.0.0.7") (Some (py "example.org")) (Some (py "aaaaaa")) in
  fst (create urlparse_ascii random e st) = Return (Jsonify 200 (JsonError CodeTaken))
  /\ fst (create urlparse_ascii random e st) = fst (create urlparse_ascii custom e st).
Proof. split; vm_compute; reflexivity. Qed.

(** C7, as the code has it: on an admitted request whose URL normalises,
    the custom code is first trimmed; a code that is not empty once
    trimmed is accepted exactly when it is made of 3 to 32 characters
    among letters, digits, [_] and [-], and is otherwise refused with
    the format message; an accepted code that a row already has is
    refused as taken, the table unchanged and no random code drawn; an
    accepted code that no row has is stored with the URL. *)
Theorem create_custom_code parse (req : request) (e : env) (st : state) (u : str) :
  let key := py "create:" ++ remote_addr req in
  let c := strip (default [] (form_custom_code req)) in
  let rb := snd (rate_limited key (utcnow e) (rate_bucket st)) in
  fst (rate_limited key (utcnow e) (rate_bucket st)) = false ->
  normalize_url parse (default [] (form_long_url req)) = Return u ->
  c <> [] ->
  (code_run c = false ->
   create parse req e st
   = (Return (Jsonify 200 (JsonError InvalidCodeFormat)), mkState rb (urls st)))
  /\ (code_run c = true -> In c (List.map code (urls st)) ->
      create parse req e st
      = (Return (Jsonify 200 (JsonError CodeTaken)), mkState rb (urls st)))
  /\ (code_run c = true -> ~ In c (List.map code (urls st)) ->
      create parse req e st
      = (Return (Jsonify 200 (JsonLink c u)),
         mkState rb (urls st ++ [mkRow c u (sqlite_now e) 0 None]))).
Proof.
  cbv zeta. intros Ha Hu Hc.
  assert (Hm : CUSTOM_CODE_REGEX_match (strip (default [] (form_custom_code req)))
               = code_run (strip (default [] (form_custom_code req)))).
  { apply regex_match_stripped, strip_stripped. }
  apply is_empty_false in Hc.
  split; [|split]; intros Hr; [|intros Hin|intros Hin]; unfold create;
    destruct (rate_limited _ _ _) as [limited rb]; cbn [fst snd] in *; subst limited;
    rewrite Hu, Hc, Hm, Hr; cbn [negb urls].
  - done.
  - by rewrite sql_insert_present.
  - by rewrite sql_insert_absent.
Qed.

Lemma create_custom_code_witness :
  let e := mkEnv 0 7 (fun _ => py "aaaaaa") in
  let st := mkState ∅ [mkRow (py "taken") (py "https://example.com/") 0 0 None] in
  let req (c : string) := mkRequest (py "10.0.0.7") (Some (py "example.org")) (Some (py c)) in
  let rb := snd (rate_limited (py "create:10.0.0.7") 0 ∅) in
  let u := py "https://example.org" in
  create urlparse_ascii (req "a b"%string) e st
  = (Return (Jsonify 200 (JsonError InvalidCodeFormat)), mkState rb (urls st))
  /\ create urlparse_ascii (req "taken"%string) e st
     = (Return (Jsonify 200 (JsonError CodeTaken)), mkState rb (urls st))
  /\ create urlparse_ascii (req " free_1 "%string) e st
     = (Return (Jsonify 200 (JsonLink (py "free_1") u)),
        mkState rb (urls st ++ [mkRow (py "free_1") u 7 0 None])).
Proof.
  intros e st req rb u.
  assert (Ha : fst (rate_limited (py "create:10.0.0.7") 0 ∅) = false)
    by (vm_compute; reflexivity).
  assert (Hu : normalize_url urlparse_ascii (py "example.org") = Return u)
    by (vm_compute; reflexivity).
  split; [|split].
  - destruct (create_custom_code urlparse_ascii (req "a b"%string) e st u Ha Hu) as (H & _ & _).
    + vm_compute. discriminate.
    + apply H. vm_compute. reflexivity.
  - destruct (create_custom_code urlparse_ascii (req "taken"%string) e st u Ha Hu) as (_ & H & _).
    + vm_compute. discriminate.
    + apply H; [vm_compute; reflexivity|]. left. reflexivity.
  - destruct (create_custom_code urlparse_ascii (req " free_1 "%string) e st u Ha Hu) as (_ & _ & H).
    + vm_compute. discriminate.
    + apply H; [vm_compute; reflexivity|].
      intros [Hin|[]]. vm_compute in Hin. discriminate.
Defined.

(** C7, as the specification states it, fails: a custom code with
    white space around it does not match the pattern, and is accepted
    all the same, trimmed. *)
Lemma create_trims_custom_code :
  let e := mkEnv 0 7 (fun _ => py "aaaaaa") in
  let req := mkRequest (py "10.0.0.7") (Some (py "example.org")) (Some (py " abc ")) in
  CUSTOM_CODE_REGEX_match (py " abc ") = false
  /\ fst (create urlparse_ascii req e empty_state)
     = Return (Jsonify 200 (JsonLink (py "abc") (py "https://example.org"))).
Proof. split; vm_compute; reflexivity. Qed.

(** C3 fails on the code: a request whose URL is empty or only white
    space is accepted, and a row with an empty [long_url] is written. *)
Theorem create_persists_empty_long_url parse :
  let e := mkEnv 0 7 (fun _ => py "aaaaaa") in
  let req := mkRequest (py "10.0.0.7") (Some (py "   ")) (Some (py "abc")) in
  fst (create parse req e empty_state) = Return (Jsonify 200 (JsonLink (py "abc") []))
  /\ urls (snd (create parse req e empty_state)) = [mkRow (py "abc") [] 7 0 None].
Proof. split; vm_compute; reflexivity. Qed.

(** ** Further properties of [normalize_url] and [random_code] *)

Lemma CODE_CHARS_alnum (c : N) :
  In c CODE_CHARS -> (isalpha_ascii c || isdigit_ascii c) = true.
Proof.
  assert (H : forallb (fun c => isalpha_ascii c || isdigit_ascii c) CODE_CHARS = true)
    by (vm_compute; reflexivity).
  rewrite forallb_forall in H. apply H.
Qed.

Lemma random_code_gen_chars (n : nat) (randbelow : nat -> nat) (c : N) :
  (forall i, (i < n)%nat -> (randbelow i < 62)%nat) ->
  In c (random_code_gen n randbelow) -> (isalpha_ascii c || isdigit_ascii c) = true.
Proof.
  intros Hr Hc. unfold random_code_gen in Hc. apply List.in_map_iff in Hc as (i & <- & Hi).
  apply List.in_seq in Hi. apply CODE_CHARS_alnum, List.nth_In.
  change (length CODE_CHARS) with 62%nat. apply Hr. lia.
Qed.

(** X1: a random code has the length asked for and is made of ASCII
    letters and digits only; with a length from 3 to 32, as the default
    6, it matches the pattern required of custom codes. *)
Theorem random_code_gen_format (n : nat) (randbelow : nat -> nat) :
  (forall i, (i < n)%nat -> (randbelow i < 62)%nat) ->
  length (random_code_gen n randbelow) = n
  /\ (forall c, In c (random_code_gen n randbelow) ->
                (isalpha_ascii c || isdigit_ascii c) = true)
  /\ ((3 <= n <= 32)%nat -> CUSTOM_CODE_REGEX_match (random_code_gen n randbelow) = true).
Proof.
  intros Hr.
  assert (Hl : length (random_code_gen n randbelow) = n).
  { unfold random_code_gen. by rewrite List.length_map, List.length_seq. }
  split; [exact Hl|]. split; [intros c; by apply random_code_gen_chars|].
  intros Hn. unfold CUSTOM_CODE_REGEX_match. apply orb_true_iff. left.
  unfold code_run. rewrite Hl.
  apply andb_true_iff; split; [apply andb_true_iff; split|]; [|lia|lia].
  apply forallb_forall. intros c Hc. unfold code_char.
  by rewrite (random_code_gen_chars n randbelow c Hr Hc).
Qed.

Lemma random_code_gen_format_witness :
  let randbelow := fun i : nat => (7 * i + 25)%nat in
  (forall i, (i < CODE_LEN)%nat -> (randbelow i < 62)%nat)
  /\ random_code_gen CODE_LEN randbelow = py "zGNU18"
  /\ CUSTOM_CODE_REGEX_match (random_code_gen CODE_LEN randbelow) = true.
Proof.
  intros randbelow.
  assert (H : forall i, (i < CODE_LEN)%nat -> (randbelow i < 62)%nat).
  { intros i Hi. unfold randbelow, CODE_LEN in *. lia. }
  split; [exact H|]. split; [vm_compute; reflexivity|].
  destruct (random_code_gen_format CODE_LEN randbelow H) as (_ & _ & H3).
  apply H3. unfold CODE_LEN. lia.
Defined.



(** ** Further properties of the limiter *)

Lemma rate_limited_other (key k : str) (now : Z) (rb : gmap str (list Z)) :
  k <> key -> snd (rate_limited key now rb) !! k = rb !! k.
Proof. intros H. rewrite rate_limited_snd. by apply lookup_insert_ne. Qed.

Lemma in_window_length (now : Z) (b : list Z) :
  (length (in_window now b) <= length b)%nat.
Proof. apply List.filter_length_le. Qed.

Lemma rate_limited_bounded (key : str) (now : Z) (rb : gmap str (list Z)) :
  bounded rb -> bounded (snd (rate_limited key now rb)).
Proof.
  intros Hb k b. destruct (decide (k = key)) as [->|Hk].
  - rewrite rate_limited_lookup.
    destruct (fst (rate_limited key now rb)) eqn:E; intros [= <-].
    + assert (H0 : (length (default [] (rb !! key)) <= 10)%nat).
      { destruct (rb !! key) as [b0|] eqn:E0; [exact (Hb key b0 E0)|cbn; lia]. }
      pose proof (in_window_length now (default [] (rb !! key))) as Hl. lia.
    + apply rate_limited_admits in E. rewrite length_app. cbn. lia.
  - rewrite rate_limited_other by done. apply Hb.
Qed.

Lemma step_bounded parse (st : state) (k : call) :
  bounded (rate_bucket st) -> bounded (rate_bucket (step parse st k)).
Proof.
  intros Hb. destruct k as [req e|c t f]; cbn [step].
  - rewrite create_rate_bucket. by apply rate_limited_bounded.
  - unfold go. destruct (sql_select _ _); [|done]. by destruct f.
Qed.

(** X2: the limiter never holds more than 10 timestamps for a key: a
    check keeps this bound, and so does every run of shorten and
    resolve requests, from the empty state in particular. *)
Theorem rate_bucket_bounded parse :
  (forall (key : str) (now : Z) (rb : gmap str (list Z)),
     bounded rb -> bounded (snd (rate_limited key now rb)))
  /\ (forall (ks : list call) (st : state),
        bounded (rate_bucket st) -> bounded (rate_bucket (run parse ks st)))
  /\ (forall ks : list call, bounded (rate_bucket (run parse ks empty_state))).
Proof.
  assert (Hrun : forall (ks : list call) (st : state),
            bounded (rate_bucket st) -> bounded (rate_bucket (run parse ks st))).
  { unfold run. induction ks as [|k ks IH]; intros st Hb; [done|].
    cbn [fold_left]. by apply IH, step_bounded. }
  split; [apply rate_limited_bounded|]. split; [exact Hrun|].
  intros ks. apply Hrun. intros k b Hk. cbn in Hk. by rewrite lookup_empty in Hk.
Qed.

Lemma rate_bucket_bounded_witness :
  let key := py "create:10.0.0.7" in
  let rb : gmap str (list Z) := {[ key := [1; 2; 3; 4; 5; 6; 7; 8; 9; 10] ]} in
  let req := mkRequest (py "10.0.0.7") (Some (py "example.org")) None in
  let ks := [Shorten req (mkEnv 11 0 (fun _ => py "aaaaaa")); Resolve (py "aaaaaa") 1 false] in
  bounded rb
  /\ bounded (snd (rate_limited key 11 rb))
  /\ bounded (rate_bucket (run urlparse_ascii ks (mkState rb [])))
  /\ snd (rate_limited key 11 rb) !! key = Some [1; 2; 3; 4; 5; 6; 7; 8; 9; 10].
Proof.
  intros key rb req ks.
  assert (Hb : bounded rb).
  { intros k b Hk. subst rb. apply lookup_singleton_Some in Hk as [_ <-]. cbn. lia. }
  destruct (rate_bucket_bounded urlparse_ascii) as (H1 & H2 & _).
  split; [exact Hb|]. split; [exact (H1 key 11 rb Hb)|].
  split; [exact (H2 ks (mkState rb []) Hb)|]. vm_compute. reflexivity.
Defined.

Lemma rate_run_other (calls : list (str * Z)) (k : str) (rb : gmap str (list Z)) :
  Forall (fun kt => fst kt <> k) calls -> rate_run calls rb !! k = rb !! k.
Proof.
  revert rb. induction calls as [|[key t] calls IH]; intros rb Hc; [done|].
  cbn [rate_run]. apply Forall_cons in Hc as [Hk Hc]. cbn in Hk.
  rewrite IH by done. by apply rate_limited_other.
Qed.

Lemma rate_limited_local (key : str) (now : Z) (rb rb' : gmap str (list Z)) :
  rb !! key = rb' !! key ->
  fst (rate_limited key now rb) = fst (rate_limited key now rb')
  /\ snd (rate_limited key now rb) !! key = snd (rate_limited key now rb') !! key.
Proof.
  intros H. rewrite !rate_limited_lookup, !rate_limited_fst, H. done.
Qed.

(** X3: the keys of the limiter do not interfere: after any checks of
    other keys, a check of a key is decided as it would have been
    without them, and leaves the same bucket for that key. *)
Theorem rate_limited_keys_independent
    (others : list (str * Z)) (key : str) (now : Z) (rb : gmap str (list Z)) :
  Forall (fun kt => fst kt <> key) others ->
  fst (rate_limited key now (rate_run others rb)) = fst (rate_limited key now rb)
  /\ snd (rate_limited key now (rate_run others rb)) !! key
     = snd (rate_limited key now rb) !! key.
Proof.
  intros H. apply rate_limited_local. by apply rate_run_other.
Qed.

Lemma rate_limited_keys_independent_witness :
  let a := py "create:10.0.0.7" in
  let b := py "create:10.0.0.8" in
  let rb : gmap str (list Z) := {[ a := [1; 2; 3; 4; 5; 6; 7; 8; 9] ]} in
  let others := [(b, 10); (b, 11); (b, 12)] in
  Forall (fun kt => fst kt <> a) others
  /\ fst (rate_limited a 13 (rate_run others rb)) = false
  /\ snd (rate_limited a 13 (rate_run others rb)) !! a
     = Some [1; 2; 3; 4; 5; 6; 7; 8; 9; 13].
Proof.
  intros a b rb others.
  assert (H : Forall (fun kt => fst kt <> a) others).
  { repeat constructor; cbn; intros E; vm_compute in E; discriminate. }
  split; [exact H|].
  destruct (rate_limited_keys_independent others a 13 rb H) as [H1 H2].
  split.
  - rewrite H1. vm_compute. reflexivity.
  - rewrite H2. vm_compute. reflexivity.
Defined.

(** ** Further properties of [create] *)

Lemma sql_select_app_old (db l : table) (c : str) (r : row) :
  sql_select db c = Some r -> sql_select (db ++ l) c = Some r.
Proof.
  unfold sql_select. induction db as [|x db IH]; [done|]. cbn [app List.find].
  by destruct (str_eqb (code x) c).
Qed.

Lemma sql_select_app_new (db : table) (r : row) :
  ~ In (code r) (List.map code db) -> sql_select (db ++ [r]) (code r) = Some r.
Proof.
  unfold sql_select. induction db as [|x db IH]; intros Hc; cbn [app List.find].
  - assert (E : str_eqb (code r) (code r) = true) by by apply str_eqb_eq.
    by rewrite E.
  - destruct (str_eqb (code x) (code r)) eqn:E.
    + apply str_eqb_eq in E. elim Hc. left. done.
    + apply IH. intros Hin. apply Hc. by right.
Qed.

(** What stands behind an answer of [create] that carries a link. *)
Lemma create_link parse (req : request) (e : env) (st : state) (c u : str) (n : Z) :
  fst (create parse req e st) = Return (Jsonify n (JsonLink c u)) ->
  normalize_url parse (default [] (form_long_url req)) = Return u
  /\ ~ In c (List.map code (urls st))
  /\ urls (snd (create parse req e st)) = urls st ++ [mkRow c u (sqlite_now e) 0 None]
  /\ (let cc := strip (default [] (form_custom_code req)) in
      (cc <> [] /\ c = cc /\ CUSTOM_CODE_REGEX_match cc = true)
      \/ (cc = [] /\ c = for_range 10 0 (random_code e) (urls st) [])).
Proof.
  unfold create.
  destruct (rate_limited _ _ _) as [[] rb]; [done|].
  destruct (normalize_url _ _) as [v|[]]; try done.
  cbn [urls].
  destruct (is_empty _) eqn:Ec; cbn [negb].
  - apply is_empty_true in Ec.
    destruct (sql_insert _ _ _ _) as [db'|[]] eqn:E; try done.
    apply sql_insert_return in E as [Hc ->]. cbn [fst snd urls].
    intros [= <- <- <-]. split_and!; auto.
  - apply is_empty_false in Ec.
    destruct (CUSTOM_CODE_REGEX_match _) eqn:Em; cbn [negb]; [|done].
    destruct (sql_insert _ _ _ _) as [db'|[]] eqn:E; try done.
    apply sql_insert_return in E as [Hc ->]. cbn [fst snd urls].
    intros [= <- <- <-]. split_and!; auto.
Qed.

(** X5: [create] answers 429 exactly when the limiter denies the
    caller; it then looks at nothing else in the request, writes no row
    and records no timestamp: the caller's bucket is the old one,
    pruned. *)
Theorem create_too_many_requests parse (req : request) (e : env) (st : state) :
  let key := py "create:" ++ remote_addr req in
  (fst (rate_limited key (utcnow e) (rate_bucket st)) = true ->
   fst (create parse req e st) = Return (Jsonify 429 (JsonError "Too many requests"))
   /\ urls (snd (create parse req e st)) = urls st
   /\ rate_bucket (snd (create parse req e st)) !! key
      = Some (in_window (utcnow e) (default [] (rate_bucket st !! key))))
  /\ (forall b : body,
        fst (create parse req e st) = Return (Jsonify 429 b) ->
        fst (rate_limited key (utcnow e) (rate_bucket st)) = true).
Proof.
  cbv zeta. split.
  - intros Hl. split; [|split].
    + unfold create. destruct (rate_limited _ _ _) as [l rb]. cbn [fst] in Hl.
      by subst l.
    + unfold create. destruct (rate_limited _ _ _) as [l rb]. cbn [fst] in Hl.
      by subst l.
    + by rewrite create_rate_bucket, rate_limited_lookup, Hl.
  - intros b. unfold create.
    destruct (rate_limited _ _ _) as [[] rb]; [done|].
    destruct (normalize_url _ _) as [v|[]]; try done.
    destruct (is_empty _); cbn [negb].
    + by destruct (sql_insert _ _ _ _) as [db'|[]].
    + destruct (CUSTOM_CODE_REGEX_match _); cbn [negb]; [|done].
      by destruct (sql_insert _ _ _ _) as [db'|[]].
Qed.

Lemma create_too_many_requests_witness :
  let key := py "create:10.0.0.7" in
  let rb : gmap str (list Z) := {[ key := [1; 2; 3; 4; 5; 6; 7; 8; 9; 10] ]} in
  let req := mkRequest (py "10.0.0.7") (Some (py "example.org")) None in
  let e := mkEnv 11 0 (fun _ => py "aaaaaa") in
  let st := mkState rb [] in
  fst (rate_limited key (utcnow e) rb) = true
  /\ fst (create urlparse_ascii req e st)
     = Return (Jsonify 429 (JsonError "Too many requests"))
  /\ urls (snd (create urlparse_ascii req e st)) = []
  /\ rate_bucket (snd (create urlparse_ascii req e st)) !! key
     = Some [1; 2; 3; 4; 5; 6; 7; 8; 9; 10].
Proof.
  intros key rb req e st.
  assert (Hl : fst (rate_limited key (utcnow e) rb) = true) by (vm_compute; reflexivity).
  destruct (create_too_many_requests urlparse_ascii req e st) as [H _].
  destruct (H Hl) as (H1 & H2 & H3).
  split; [exact Hl|]. split; [exact H1|]. split; [exact H2|].
  refine (eq_trans H3 _). vm_compute. reflexivity.
Defined.





Lemma for_range_first_free (db : table) (draw : nat -> str) (n i j : nat) (code0 : str) :
  (i <= j < i + n)%nat ->
  (forall k, (i <= k < j)%nat -> In (draw k) (List.map code db)) ->
  ~ In (draw j) (List.map code db) ->
  for_range n i draw db code0 = draw j.
Proof.
  revert i code0. induction n as [|n IH]; intros i code0 Hj Hd Hf; [lia|].
  cbn [for_range]. destruct (decide (i = j)) as [->|Hne].
  - apply sql_select_absent in Hf. by rewrite Hf.
  - assert (Hi : In (draw i) (List.map code db)) by (apply Hd; lia).
    apply sql_select_present in Hi. destruct (sql_select db (draw i)); [|done].
    apply IH; [lia| |done]. intros k Hk. apply Hd. lia.
Qed.

(** X8: without a custom code, [create] stores the first of its (at
    most 10) random codes that no row has: codes drawn before it, all
    taken, are passed over without any error. *)
Theorem create_first_free_draw parse (req : request) (e : env) (st : state)
    (u : str) (j : nat) :
  let key := py "create:" ++ remote_addr req in
  fst (rate_limited key (utcnow e) (rate_bucket st)) = false ->
  strip (default [] (form_custom_code req)) = [] ->
  normalize_url parse (default [] (form_long_url req)) = Return u ->
  (j < 10)%nat ->
  (forall k, (k < j)%nat -> In (random_code e k) (List.map code (urls st))) ->
  ~ In (random_code e j) (List.map code (urls st)) ->
  create parse req e st
  = (Return (Jsonify 200 (JsonLink (random_code e j) u)),
     mkState (snd (rate_limited key (utcnow e) (rate_bucket st)))
       (urls st ++ [mkRow (random_code e j) u (sqlite_now e) 0 None])).
Proof.
  cbv zeta. intros Ha Hc Hu Hj Hd Hf. unfold create.
  destruct (rate_limited _ _ _) as [limited rb]. cbn [fst snd] in *. subst limited.
  rewrite Hu, Hc. cbn [is_empty negb urls].
  rewrite (for_range_first_free (urls st) (random_code e) 10 0 j []);
    [|lia|intros k Hk; apply Hd; lia|done].
  by rewrite sql_insert_absent.
Qed.

Lemma create_first_free_draw_witness :
  let req := mkRequest (py "10.0.0.7") (Some (py "example.org")) None in
  let draw := fun i : nat => if (i <? 2)%nat then py "aaaaaa" else py "bbbbbb" in
  let e := mkEnv 0 7 draw in
  let st := mkState ∅ [mkRow (py "aaaaaa") (py "https://example.com/") 0 0 None] in
  (forall k, (k < 2)%nat -> In (draw k) (List.map code (urls st)))
  /\ ~ In (draw 2%nat) (List.map code (urls st))
  /\ create urlparse_ascii req e st
     = (Return (Jsonify 200 (JsonLink (py "bbbbbb") (py "https://example.org"))),
        mkState (snd (rate_limited (py "create:10.0.0.7") 0 ∅))
          (urls st ++ [mkRow (py "bbbbbb") (py "https://example.org") 7 0 None])).
Proof.
  intros req draw e st.
  assert (H1 : forall k, (k < 2)%nat -> In (draw k) (List.map code (urls st))).
  { intros k Hk. left. unfold draw. destruct (Nat.ltb_spec k 2); [done|lia]. }
  assert (H2 : ~ In (draw 2%nat) (List.map code (urls st))).
  { intros [H|[]]. vm_compute in H. discriminate. }
  split; [exact H1|]. split; [exact H2|].
  apply (create_first_free_draw urlparse_ascii req e st (py "https://example.org") 2);
    [vm_compute; reflexivity|reflexivity|vm_compute; reflexivity|lia|exact H1|exact H2].
Defined.

Lemma create_link_row parse (req : request) (e : env) (st : state) (c u : str) (n : Z) :
  fst (create parse req e st) = Return (Jsonify n (JsonLink c u)) ->
  sql_select (urls (snd (create parse req e st))) c
  = Some (mkRow c u (sqlite_now e) 0 None).
Proof.
  intros H. destruct (create_link _ _ _ _ _ _ _ H) as (_ & Hc & -> & _).
  by apply (sql_select_app_new (urls st) (mkRow c u (sqlite_now e) 0 None)).
Qed.

(** X9: a link that [create] answered with resolves: its code was in no
    row before, the table now holds for it a row with the normalised
    URL, no click and no access time, and [go] on the code redirects to
    that URL and leaves the row with one click. *)
Theorem create_then_go parse (req : request) (e : env) (st : state)
    (c u : str) (n t : Z) :
  let st' := snd (create parse req e st) in
  fst (create parse req e st) = Return (Jsonify n (JsonLink c u)) ->
  normalize_url parse (default [] (form_long_url req)) = Return u
  /\ sql_select (urls st) c = None
  /\ sql_select (urls st') c = Some (mkRow c u (sqlite_now e) 0 None)
  /\ fst (go c t false st') = Return (Redirect u)
  /\ sql_select (urls (snd (go c t false st'))) c
     = Some (mkRow c u (sqlite_now e) 1 (Some t)).
Proof.
  cbv zeta. intros H. destruct (create_link _ _ _ _ _ _ _ H) as (Hu & Hc & Hs & _).
  pose proof (create_link_row _ _ _ _ _ _ _ H) as Hr.
  split; [exact Hu|]. split; [by apply sql_select_absent|]. split; [exact Hr|].
  rewrite (go_present _ _ _ _ Hr). split; [done|].
  cbn [snd urls]. by rewrite sql_select_update, Hr.
Qed.

Lemma create_then_go_witness :
  let req := mkRequest (py "10.0.0.7") (Some (py "no-scheme.example/path")) None in
  let e := mkEnv 0 7 (fun _ => py "q3Zx9A") in
  let st' := snd (create urlparse_ascii req e empty_state) in
  fst (create urlparse_ascii req e empty_state)
  = Return (Jsonify 200 (JsonLink (py "q3Zx9A") (py "https://no-scheme.example/path")))
  /\ fst (go (py "q3Zx9A") 9 false st')
     = Return (Redirect (py "https://no-scheme.example/path"))
  /\ sql_select (urls (snd (go (py "q3Zx9A") 9 false st'))) (py "q3Zx9A")
     = Some (mkRow (py "q3Zx9A") (py "https://no-scheme.example/path") 7 1 (Some 9)).
Proof.
  intros req e st'.
  assert (H : fst (create urlparse_ascii req e empty_state)
              = Return (Jsonify 200 (JsonLink (py "q3Zx9A")
                                       (py "https://no-scheme.example/path"))))
    by (vm_compute; reflexivity).
  destruct (create_then_go urlparse_ascii req e empty_state _ _ _ 9 H)
    as (_ & _ & _ & H4 & H5).
  split; [exact H|]. split; [exact H4|exact H5].
Defined.

(** ** Further properties of the table over runs *)

Lemma sql_select_map (f : row -> row) (db : table) (c : str) :
  (forall r, code (f r) = code r) ->
  sql_select (List.map f db) c = f <$> sql_select db c.
Proof.
  intros Hf. unfold sql_select. induction db as [|x db IH]; [done|].
  cbn [List.map List.find]. rewrite Hf. by destruct (str_eqb (code x) c).
Qed.

Lemma click_code (c : str) (t : Z) (r : row) :
  code (if str_eqb (code r) c then click t r else r) = code r.
Proof. by destruct (str_eqb (code r) c). Qed.

Lemma grows_refl (r : row) : grows r r.
Proof. unfold grows. split_and!; [done..|lia]. Qed.

Lemma grows_trans (a b c : row) : grows a b -> grows b c -> grows a c.
Proof.
  unfold grows. intros (H1 & H2 & H3 & H4) (K1 & K2 & K3 & K4).
  split_and!; [congruence..|lia].
Qed.

Lemma grows_click (c : str) (t : Z) (r : row) :
  grows r (if str_eqb (code r) c then click t r else r).
Proof.
  destruct (str_eqb (code r) c); [|apply grows_refl].
  unfold grows, click. cbn. split_and!; [done..|apply sqlite_incr_ge].
Qed.

Lemma step_grows parse (st : state) (k : call) (c : str) (r : row) :
  sql_select (urls st) c = Some r ->
  exists r', sql_select (urls (step parse st k)) c = Some r' /\ grows r r'.
Proof.
  intros H. destruct k as [req e|c' t f]; cbn [step].
  - exists r. split; [|apply grows_refl].
    destruct (create_urls parse req e st) as [->|(c1 & u & _ & _ & ->)]; [done|].
    by apply sql_select_app_old.
  - unfold go. destruct (sql_select (urls st) c'); [|exists r; split; [done|apply grows_refl]].
    destruct f; cbn [sql_update_click snd urls];
      [exists r; split; [done|apply grows_refl]|].
    rewrite sql_select_map by (intros; apply click_code). rewrite H. cbn.
    eexists. split; [done|]. apply grows_click.
Qed.

(** X10: no request deletes or rewrites a row: through every run of
    shorten and resolve requests, a code of the table stays in the
    table with the same URL and the same creation time, and its clicks
    never go down. *)
Theorem rows_only_grow parse (ks : list call) (st : state) (c : str) (r : row) :
  sql_select (urls st) c = Some r ->
  exists r', sql_select (urls (run parse ks st)) c = Some r' /\ grows r r'.
Proof.
  unfold run. revert st r. induction ks as [|k ks IH]; intros st r H.
  - exists r. split; [done|apply grows_refl].
  - cbn [fold_left]. destruct (step_grows parse st k c r H) as (r1 & H1 & G1).
    destruct (IH _ _ H1) as (r2 & H2 & G2). exists r2. split; [done|].
    by apply (grows_trans r r1 r2).
Qed.

Lemma rows_only_grow_witness :
  let r := mkRow (py "abc") (py "https://example.com/") 3 4 None in
  let req := mkRequest (py "10.0.0.7") (Some (py "example.org")) (Some (py "abc")) in
  let e := mkEnv 0 0 (fun _ => py "aaaaaa") in
  let ks := [Resolve (py "abc") 8 false; Shorten req e; Resolve (py "abc") 9 false] in
  let st := mkState ∅ [r] in
  sql_select (urls st) (py "abc") = Some r
  /\ (exists r', sql_select (urls (run urlparse_ascii ks st)) (py "abc") = Some r'
                 /\ grows r r')
  /\ sql_select (urls (run urlparse_ascii ks st)) (py "abc")
     = Some (mkRow (py "abc") (py "https://example.com/") 3 6 (Some 9)).
Proof.
  intros r req e ks st.
  assert (H : sql_select (urls st) (py "abc") = Some r) by (vm_compute; reflexivity).
  split; [exact H|]. split; [exact (rows_only_grow urlparse_ascii ks st _ r H)|].
  vm_compute. reflexivity.
Defined.

(** X11: a resolve touches one code only: the row found for any other
    code is the same after [go] as before, the table has as many rows,
    and the limiter is not consulted or changed. *)
Theorem go_other_codes (c c' : str) (t : Z) (f : bool) (st : state) :
  c' <> c ->
  sql_select (urls (snd (go c t f st))) c' = sql_select (urls st) c'
  /\ length (urls (snd (go c t f st))) = length (urls st)
  /\ rate_bucket (snd (go c t f st)) = rate_bucket st.
Proof.
  intros Hne. unfold go. destruct (sql_select (urls st) c); [|done].
  destruct f; cbn [sql_update_click snd urls rate_bucket]; [done|].
  split; [|split; [apply List.length_map|done]].
  rewrite sql_select_map by (intros; apply click_code).
  destruct (sql_select (urls st) c') as [r'|] eqn:E; [|done]. cbn.
  assert (Hc : code r' = c').
  { unfold sql_select in E. apply List.find_some in E as [_ E]. by apply str_eqb_eq. }
  destruct (str_eqb (code r') c) eqn:E1; [|done].
  apply str_eqb_eq in E1. congruence.
Qed.

Lemma go_other_codes_witness :
  let a := mkRow (py "abc") (py "https://example.com/") 0 4 None in
  let b := mkRow (py "xyz") (py "http://example.org/") 0 2 (Some 5) in
  let st := mkState ∅ [a; b] in
  py "xyz" <> py "abc"
  /\ sql_select (urls (snd (go (py "abc") 9 false st))) (py "xyz") = Some b
  /\ sql_select (urls (snd (go (py "abc") 9 false st))) (py "abc")
     = Some (mkRow (py "abc") (py "https://example.com/") 0 5 (Some 9)).
Proof.
  intros a b st.
  assert (Hne : py "xyz" <> py "abc") by (vm_compute; discriminate).
  destruct (go_other_codes (py "abc") (py "xyz") 9 false st Hne) as (H1 & _ & _).
  split; [exact Hne|]. split.
  - refine (eq_trans H1 _). vm_compute. reflexivity.
  - vm_compute. reflexivity.
Defined.

Lemma for_range_is_draw (db : table) (draw : nat -> str) (n i : nat) (code0 : str) :
  (0 < n)%nat -> exists j, for_range n i draw db code0 = draw j.
Proof.
  revert i code0. induction n as [|n IH]; intros i code0 Hn; [lia|].
  cbn [for_range]. destruct (sql_select db (draw i)); [|eauto].
  destruct n as [|n]; [cbn; eauto|]. apply IH. lia.
Qed.

Lemma create_same_or_link parse (req : request) (e : env) (st : state) :
  urls (snd (create parse req e st)) = urls st
  \/ exists c u, fst (create parse req e st) = Return (Jsonify 200 (JsonLink c u)).
Proof.
  unfold create.
  destruct (rate_limited _ _ _) as [[] rb]; [by left|].
  destruct (normalize_url _ _) as [v|[]]; try (by left).
  destruct (is_empty _); cbn [negb].
  - destruct (sql_insert _ _ _ _) as [db'|[]]; try (by left). right. eauto.
  - destruct (CUSTOM_CODE_REGEX_match _); cbn [negb]; [|by left].
    destruct (sql_insert _ _ _ _) as [db'|[]]; try (by left). right. eauto.
Qed.

Lemma step_codes_well_formed parse (st : state) (k : call) :
  draws_ok k ->
  Forall (fun c => code_run c = true) (List.map code (urls st)) ->
  Forall (fun c => code_run c = true) (List.map code (urls (step parse st k))).
Proof.
  intros Hk Hst. destruct k as [req e|c t f]; cbn [step].
  - destruct (create_same_or_link parse req e st) as [->|(c & u & E)]; [done|].
    destruct (create_link _ _ _ _ _ _ _ E) as (_ & _ & -> & Hc).
    rewrite List.map_app. apply Forall_app. split; [done|].
    constructor; [|constructor]. cbn [code]. cbv zeta in Hc.
    destruct Hc as [(_ & -> & Hm)|(_ & ->)].
    + by rewrite <- (regex_match_stripped _ (strip_stripped _)).
    + destruct (for_range_is_draw (urls st) (random_code e) 10 0 []) as [j ->]; [lia|].
      apply Hk.
  - by rewrite go_codes.
Qed.

(** X12: every code in the table has the shape of the pattern, 3 to 32
    characters among letters, digits, [_] and [-]: a run of requests
    whose random codes have this shape, as those of [random_code] do,
    keeps it so, custom codes being stored only when they match. *)
Theorem stored_codes_well_formed parse (ks : list call) (st : state) :
  Forall draws_ok ks ->
  Forall (fun c => code_run c = true) (List.map code (urls st)) ->
  Forall (fun c => code_run c = true) (List.map code (urls (run parse ks st))).
Proof.
  unfold run. revert st. induction ks as [|k ks IH]; intros st Hks Hst; [done|].
  apply Forall_cons in Hks as [Hk Hks]. cbn [fold_left].
  apply IH; [done|]. by apply step_codes_well_formed.
Qed.

Lemma stored_codes_well_formed_witness :
  let e := mkEnv 0 7 (fun _ => random_code_gen CODE_LEN (fun i => (7 * i + 25)%nat)) in
  let req c := mkRequest (py "10.0.0.7") (Some (py "example.org")) c in
  let ks := [Shorten (req None) e; Shorten (req (Some (py " my-code_1 "))) e;
             Shorten (req (Some (py "a!"))) e; Resolve (py "zGNU18") 9 false] in
  Forall draws_ok ks
  /\ Forall (fun c => code_run c = true)
       (List.map code (urls (run urlparse_ascii ks empty_state)))
  /\ List.map code (urls (run urlparse_ascii ks empty_state))
     = [py "zGNU18"; py "my-code_1"].
Proof.
  intros e req ks.
  assert (H : Forall draws_ok ks).
  { repeat constructor; intros i; vm_compute; reflexivity. }
  split; [exact H|]. split.
  - apply (stored_codes_well_formed urlparse_ascii ks empty_state H). constructor.
  - vm_compute. reflexivity.
Defined.

(** ** [qr_png] *)

(** X13: [qr_png] only reads: it never changes the state, so it counts
    no click; it answers 404 on exactly the codes on which [go] does,
    and on every other code sends the PNG of the QR code of the host
    URL followed by the code, as for a link just created. *)
Theorem qr_png_reads_only parse (host_url c : str) (t : Z) (st : state) :
  snd (qr_png host_url c st) = st
  /\ (fst (qr_png host_url c st) = PngAbort 404
      <-> fst (go c t false st) = Return (Abort 404))
  /\ (In c (List.map code (urls st)) ->
      fst (qr_png host_url c st) = SendFile "image/png" (host_url ++ c))
  /\ (forall (req : request) (e : env) (n : Z) (u : str),
        fst (create parse req e st) = Return (Jsonify n (JsonLink c u)) ->
        fst (qr_png host_url c (snd (create parse req e st)))
        = SendFile "image/png" (host_url ++ c)).
Proof.
  assert (Hp : forall st0, sql_select (urls st0) c <> None ->
                           fst (qr_png host_url c st0) = SendFile "image/png" (host_url ++ c)).
  { intros st0 H. unfold qr_png. by destruct (sql_select (urls st0) c). }
  split; [|split; [|split]].
  - unfold qr_png. by destruct (sql_select (urls st) c).
  - unfold qr_png, go. by destruct (sql_select (urls st) c).
  - intros H. by apply Hp, sql_select_present.
  - intros req e n u H. apply Hp.
    by rewrite (create_link_row _ _ _ _ _ _ _ H).
Qed.

Lemma qr_png_reads_only_witness :
  let host := py "http://localhost:5000/" in
  let st := mkState ∅ [mkRow (py "abc") (py "https://example.com/") 0 4 None] in
  In (py "abc") (List.map code (urls st))
  /\ qr_png host (py "abc") st = (SendFile "image/png" (py "http://localhost:5000/abc"), st)
  /\ fst (qr_png host (py "nope") st) = PngAbort 404.
Proof.
  intros host st.
  assert (H : In (py "abc") (List.map code (urls st))) by (left; reflexivity).
  split; [exact H|].
  destruct (qr_png_reads_only urlparse_ascii host (py "abc") 0 st) as (H1 & _ & H3 & _).
  split.
  - rewrite (surjective_pairing (qr_png host (py "abc") st)), H1, (H3 H). reflexivity.
  - vm_compute. reflexivity.
Defined.

(** ** Further properties of the limiter over time *)

Lemma rate_calls_room (key : str) (ts : list Z) (rb : gmap str (list Z)) :
  (length (default [] (rb !! key)) + length ts <= 10)%nat ->
  fst (rate_calls key ts rb) = repeat false (length ts).
Proof.
  revert rb. induction ts as [|t ts IH]; intros rb Hl; [done|].
  cbn [rate_calls length repeat] in *.
  pose proof (in_window_length t (default [] (rb !! key))) as Hw.
  assert (Ha : fst (rate_limited key t rb) = false) by (apply rate_limited_admits; lia).
  pose proof (rate_limited_lookup key t rb) as Hb. rewrite Ha in Hb.
  destruct (rate_limited key t rb) as [limited rb1]. cbn [fst snd] in *. subst limited.
  specialize (IH rb1). destruct (rate_calls key ts rb1) as [ls rb2]. cbn [fst] in *.
  rewrite IH; [done|]. rewrite Hb. change (default [] (Some ?x)) with x.
  rewrite length_app. cbn [length]. lia.
Qed.

(** X14: a key the limiter has not seen is admitted 10 times whatever
    the times of the checks; more generally a key with [n] recorded
    timestamps is admitted on its next [10 - n] checks. *)
Theorem rate_limited_first_ten (key : str) (ts : list Z) (rb : gmap str (list Z)) :
  (rb !! key = None -> (length ts <= 10)%nat ->
   fst (rate_calls key ts rb) = repeat false (length ts))
  /\ ((length (default [] (rb !! key)) + length ts <= 10)%nat ->
      fst (rate_calls key ts rb) = repeat false (length ts)).
Proof.
  split; [|apply rate_calls_room].
  intros Hn Hl. apply rate_calls_room. rewrite Hn. cbn. lia.
Qed.

Lemma rate_limited_first_ten_witness :
  let key := py "create:10.0.0.7" in
  let ts := [5; 5; 1; 900000000; 3; 3; 3; 2; 1; 0] in
  ((∅ : gmap str (list Z)) !! key = None /\ (length ts <= 10)%nat)
  /\ fst (rate_calls key ts ∅) = repeat false 10.
Proof.
  intros key ts.
  assert (Hn : (∅ : gmap str (list Z)) !! key = None) by apply lookup_empty.
  assert (Hl : (length ts <= 10)%nat) by (cbn; lia).
  split; [by split|].
  destruct (rate_limited_first_ten key ts ∅) as [H _]. exact (H Hn Hl).
Defined.

(** X4: once a check at [now] is made, every timestamp the limiter
    holds for the key is younger than the window, and is one it held
    before or [now] itself, which is there only if the check
    admitted. *)
Theorem rate_limited_keeps_window (key : str) (now t : Z) (rb : gmap str (list Z)) :
  In t (default [] (snd (rate_limited key now rb) !! key)) ->
  now - timedelta RATE_LIMIT_WINDOW < t
  /\ (In t (default [] (rb !! key))
      \/ (t = now /\ fst (rate_limited key now rb) = false)).
Proof.
  rewrite rate_limited_lookup. change (default [] (Some ?x)) with x.
  assert (Hw : forall x, In x (in_window now (default [] (rb !! key))) ->
                         now - timedelta RATE_LIMIT_WINDOW < x /\ In x (default [] (rb !! key))).
  { intros x Hx. unfold in_window in Hx. apply List.filter_In in Hx as [Hx1 Hx2].
    split; [lia|done]. }
  destruct (fst (rate_limited key now rb)); intros Hin.
  - destruct (Hw t Hin). auto.
  - apply List.in_app_or in Hin as [Hin|[<-|[]]].
    + destruct (Hw t Hin). auto.
    + split; [unfold timedelta, RATE_LIMIT_WINDOW; lia|auto].
Qed.

Lemma rate_limited_keeps_window_witness :
  let key := py "create:10.0.0.7" in
  let rb : gmap str (list Z) := {[ key := [1; 5; 9] ]} in
  let now := 5 + timedelta 60 in
  snd (rate_limited key now rb) !! key = Some [9; now]
  /\ In 9 (default [] (snd (rate_limited key now rb) !! key))
  /\ now - timedelta RATE_LIMIT_WINDOW < 9.
Proof.
  intros key rb now.
  assert (H : snd (rate_limited key now rb) !! key = Some [9; now])
    by (vm_compute; reflexivity).
  assert (Hin : In 9 (default [] (snd (rate_limited key now rb) !! key))).
  { rewrite H. left. reflexivity. }
  split; [exact H|]. split; [exact Hin|].
  exact (proj1 (rate_limited_keeps_window key now 9 rb Hin)).
Defined.
